(** * ai-text-tagger: the analysis endpoint ([src/app/api/analyze/route.ts])

    A shallow embedding of the request handler [POST], of its helpers
    [makeAICall], [processProducts] and [processIssues], and of the constant
    tables they use, followed by the properties of the handler.

    Strings.  A JavaScript string is a sequence of 16-bit code units.  This
    development covers the strings whose code units are below 256 (the
    Latin-1 range, which contains ASCII): they are Rocq [string]s, one
    [ascii] per code unit.  On that range [String.prototype.trim],
    [toLowerCase], [split] and [includes] are the functions defined in
    [JSString] below: [toLowerCase] maps code unit to code unit, and the
    white space removed by [trim] is TAB, LF, VT, FF, CR, SPACE and NBSP. *)

From Stdlib Require Import String Ascii List Bool Arith ZArith Lia.
From Stdlib Require Import Floats.SpecFloat.
Import ListNotations.

Local Open Scope string_scope.
Local Open Scope list_scope.

(* ================================================================= *)
(** ** String primitives of the language *)

Module JSString.

(** WhiteSpace and LineTerminator code units below 256. *)
Definition isWhiteSpace (c : ascii) : bool :=
  let n := nat_of_ascii c in
  (((9 <=? n) && (n <=? 13)) || (n =? 32) || (n =? 160))%nat.

Fixpoint trimStart (s : string) : string :=
  match s with
  | EmptyString => EmptyString
  | String c s' => if isWhiteSpace c then trimStart s' else s
  end.

Fixpoint trimEnd (s : string) : string :=
  match s with
  | EmptyString => EmptyString
  | String c s' =>
      match trimEnd s' with
      | EmptyString =>
          if isWhiteSpace c then EmptyString else String c EmptyString
      | t => String c t
      end
  end.

(** [s.trim()] *)
Definition trim (s : string) : string := trimEnd (trimStart s).

(** Upper-case code units below 256: A-Z, and À-Þ without the
    multiplication sign; each has its lower-case form 32 above. *)
Definition isUpper (c : ascii) : bool :=
  let n := nat_of_ascii c in
  (((65 <=? n) && (n <=? 90))
   || ((192 <=? n) && (n <=? 222) && negb (n =? 215)))%nat.

Definition lowerChar (c : ascii) : ascii :=
  if isUpper c then ascii_of_nat (nat_of_ascii c + 32) else c.

(** [s.toLowerCase()] *)
Fixpoint toLowerCase (s : string) : string :=
  match s with
  | EmptyString => EmptyString
  | String c s' => String (lowerChar c) (toLowerCase s')
  end.

(** [s.split(sep)] for a separator of one code unit. *)
Fixpoint split (sep : ascii) (s : string) : list string :=
  match s with
  | EmptyString => [EmptyString]
  | String c s' =>
      if Ascii.eqb c sep then EmptyString :: split sep s'
      else match split sep s' with
           | seg :: rest => String c seg :: rest
           | [] => [String c EmptyString]
           end
  end.

Fixpoint startsWith (s p : string) : bool :=
  match p, s with
  | EmptyString, _ => true
  | String a p', String b s' => Ascii.eqb a b && startsWith s' p'
  | String _ _, EmptyString => false
  end.

(** [s.includes(sub)] *)
Fixpoint includes (s sub : string) : bool :=
  startsWith s sub
  || match s with
     | EmptyString => false
     | String _ s' => includes s' sub
     end.

(** [parts.join(sep)] *)
Fixpoint join (sep : string) (parts : list string) : string :=
  match parts with
  | [] => EmptyString
  | [p] => p
  | p :: rest => p ++ sep ++ join sep rest
  end.

(** [s === t] on strings *)
Definition strictEq (s t : string) : bool := String.eqb s t.

End JSString.
Import JSString.

(** [xs.some(f)] and [xs.filter(f)] are [existsb f xs] and [filter f xs];
    [xs.map(f)] is [map f xs]. *)
Definition some {A} (f : A -> bool) (xs : list A) : bool := existsb f xs.

(* ================================================================= *)
(** ** Constants *)

Definition comma : ascii := ","%char.
Definition dq : string := String (ascii_of_nat 34) EmptyString.
Definition nl : string := String (ascii_of_nat 10) EmptyString.

Definition CLOUDFLARE_PRODUCTS : list string :=
  [ "AI Gateway"; "Browser Rendering"; "Calls"; "Cloudflare for Platforms";
    "Email Routing"; "Hyperdrive"; "KV"; "WAF"; "Pages Gateway"; "Pub/Sub";
    "Pulumi"; "Queues"; "Magic Transit"; "Bot Management"; "Workers";
    "Pages"; "R2"; "D1"; "Images"; "Stream"; "DNS"; "SSL/TLS";
    "DDoS Protection"; "Access"; "Zero Trust"; "Spectrum"; "Load Balancing";
    "Durable Objects"; "Tenant"; "TURN Service"; "Turnstile"; "Vectorize";
    "Waiting Room"; "Cloudflare Web Analytics"; "Workers AI";
    "Workers Analytics Engine"; "Workers for Platforms"; "Workflows";
    "Zaraz" ].

Definition ISSUE_LABELS : list string :=
  [ "Bug Report"; "Feature Request"; "Performance Issue"; "Security Concern";
    "Documentation Need"; "Integration Problem"; "Configuration Help";
    "Billing Question"; "Service Disruption"; "API Issue"; "General" ].

Definition AI_MODEL : string := "@cf/meta/llama-3.1-70b-instruct".

(* ================================================================= *)
(** ** The two list normalizers *)

Definition processProducts (response : string) : list string :=
  if strictEq (toLowerCase response) "none" then []
  else
    filter
      (fun p => some (fun cp => includes (toLowerCase p) (toLowerCase cp))
                     CLOUDFLARE_PRODUCTS)
      (map trim (split comma response)).

Definition processIssues (response : string) : list string :=
  let issue := trim response in
  if some (fun label => strictEq label issue) ISSUE_LABELS
  then [issue] else ["General Question"].

(* ================================================================= *)
(** ** Values of the language

    The values the handler can meet: the JSON values of a request body or
    of an inference result, [undefined], [Error] instances, promises, the
    responses built by [NextResponse.json], and the built-in objects that a
    plain object inherits from.  A number is an IEEE 754 double. *)

#[local] Set Warnings "-register-all".

Inductive Value : Type :=
| VUndefined
| VNull
| VBool (b : bool)
| VNumber (x : spec_float)
| VString (s : string)
| VArray (elems : list Value)
| VObject (props : list (string * Value))
| VError (message : string)
| VNative (name : string)
| VPromise (id : nat)
| VResponse (status : Z) (body : Value).

(** What a synchronous expression evaluates to: a value, or a thrown one. *)
Definition Completion : Type := Value + Value.
Definition normal (v : Value) : Completion := inl v.
Definition throw (e : Value) : Completion := inr e.

Definition andThen (c : Completion) (k : Value -> Completion) : Completion :=
  match c with
  | inl v => k v
  | inr e => inr e
  end.

Notation "'do' x <- c ; k" := (andThen c (fun x => k))
  (at level 10, x name, c at level 100, k at level 200).

(** A [TypeError] raised by the engine.  The message texts below are
    those of V8; no property depends on them. *)
Definition TypeError (message : string) : Value := VError message.

(** ToBoolean: the condition of [if (!text)]. *)
Definition truthy (v : Value) : bool :=
  match v with
  | VUndefined | VNull => false
  | VBool b => b
  | VNumber (S754_zero _) | VNumber S754_nan => false
  | VString s => negb (strictEq s EmptyString)
  | _ => true
  end.

Fixpoint own (props : list (string * Value)) (key : string) : option Value :=
  match props with
  | [] => None
  | (k, v) :: rest => if strictEq k key then Some v else own rest key
  end.

(** The properties of [Object.prototype], which every object literal
    inherits; [__proto__] reads the prototype itself. *)
Definition Object_prototype : list (string * Value) :=
  [ ("constructor", VNative "Object");
    ("__proto__", VNative "Object.prototype");
    ("hasOwnProperty", VNative "Object.prototype.hasOwnProperty");
    ("isPrototypeOf", VNative "Object.prototype.isPrototypeOf");
    ("propertyIsEnumerable", VNative "Object.prototype.propertyIsEnumerable");
    ("toLocaleString", VNative "Object.prototype.toLocaleString");
    ("toString", VNative "Object.prototype.toString");
    ("valueOf", VNative "Object.prototype.valueOf");
    ("__defineGetter__", VNative "Object.prototype.__defineGetter__");
    ("__defineSetter__", VNative "Object.prototype.__defineSetter__");
    ("__lookupGetter__", VNative "Object.prototype.__lookupGetter__");
    ("__lookupSetter__", VNative "Object.prototype.__lookupSetter__") ].

(** [o[key]] on a plain object: own properties first, then the prototype. *)
Definition property (props : list (string * Value)) (key : string) : Value :=
  match own props key with
  | Some v => v
  | None =>
      match own Object_prototype key with
      | Some v => v
      | None => VUndefined
      end
  end.

(** [v.key], for the names read here ([text], [response], [sentiment],
    [label]): no primitive, array or other object met here has a property
    of one of these names. *)
Definition Get (v : Value) (key : string) : Completion :=
  match v with
  | VUndefined =>
      throw (TypeError ("Cannot read properties of undefined (reading '"
                          ++ key ++ "')"))
  | VNull =>
      throw (TypeError ("Cannot read properties of null (reading '"
                          ++ key ++ "')"))
  | VObject props => normal (property props key)
  | _ => normal VUndefined
  end.

(** [const { key } = v]: as [v.key], but for the error thrown when [v]
    is [null] or [undefined]. *)
Definition Destructure (v : Value) (key : string) : Completion :=
  match v with
  | VUndefined =>
      throw (TypeError ("Cannot destructure property '" ++ key
                          ++ "' of '(intermediate value)' as it is undefined."))
  | VNull =>
      throw (TypeError ("Cannot destructure property '" ++ key
                          ++ "' of '(intermediate value)' as it is null."))
  | _ => Get v key
  end.

(** [v.trim()] *)
Definition call_trim (v : Value) : Completion :=
  match v with
  | VString s => normal (VString (trim s))
  | VUndefined =>
      throw (TypeError "Cannot read properties of undefined (reading 'trim')")
  | VNull =>
      throw (TypeError "Cannot read properties of null (reading 'trim')")
  | _ => throw (TypeError "result.response.trim is not a function")
  end.

(* ================================================================= *)
(** ** More constants *)

Definition SENTIMENT_MAP : list (string * Value) :=
  [ ("positive",
      VObject [ ("label", VString "Positive");
                ("color", VString
                   "bg-green-500/10 text-green-500 hover:bg-green-500/20") ]);
    ("negative",
      VObject [ ("label", VString "Negative");
                ("color", VString
                   "bg-red-500/10 text-red-500 hover:bg-red-500/20") ]);
    ("neutral",
      VObject [ ("label", VString "Neutral");
                ("color", VString
                   "bg-blue-500/10 text-blue-500 hover:bg-blue-500/20") ]) ].

Module PROMPTS.

Definition sentiment : string :=
  "You are a sentiment analysis AI specializing in Cloudflare-related feedback. Analyze the given text and determine if it expresses a positive, negative, or neutral sentiment towards Cloudflare's products, services, or the company in general."
  ++ nl ++ nl ++ "Guidelines:" ++ nl
  ++ "- Respond with exactly one word: " ++ dq ++ "positive" ++ dq ++ ", "
  ++ dq ++ "negative" ++ dq ++ ", or " ++ dq ++ "neutral" ++ dq ++ nl
  ++ "- " ++ dq ++ "positive" ++ dq
  ++ ": User expresses satisfaction, praise, or enthusiasm about Cloudflare"
  ++ nl
  ++ "- " ++ dq ++ "negative" ++ dq
  ++ ": User expresses dissatisfaction, criticism, or frustration with Cloudflare"
  ++ nl
  ++ "- " ++ dq ++ "neutral" ++ dq
  ++ ": Factual statements, general inquiries, or balanced feedback about Cloudflare"
  ++ nl ++ nl
  ++ "Focus on Cloudflare-specific context and user sentiment. Respond with only one of these three words, nothing else.".

Definition products : string :=
  "You are a Cloudflare product detection AI assistant. Analyze the text and identify any mentioned Cloudflare products or services from the following list:"
  ++ nl ++ nl ++ join ", " CLOUDFLARE_PRODUCTS ++ nl ++ nl
  ++ "Guidelines:" ++ nl
  ++ "- Return only product names from the provided list" ++ nl
  ++ "- Multiple products may be mentioned" ++ nl
  ++ "- If no products are mentioned, respond with " ++ dq ++ "none" ++ dq
  ++ nl
  ++ "- Separate multiple products with commas" ++ nl
  ++ "- Match products even if mentioned with slight variations" ++ nl
  ++ "- Do not add any explanation or additional text" ++ nl ++ nl
  ++ "Example responses:" ++ nl
  ++ dq ++ "WAF, Workers" ++ dq ++ nl
  ++ dq ++ "Pages, Hyperdrive, D1" ++ dq ++ nl
  ++ dq ++ "R2" ++ dq ++ nl
  ++ dq ++ "none" ++ dq.

Definition issues : string :=
  "You are an AI assistant specialized in categorizing feedback into appropriate categories. Categorize the text into the most appropriate category from the following list:"
  ++ nl ++ nl ++ join ", " ISSUE_LABELS ++ nl ++ nl
  ++ "Guidelines:" ++ nl
  ++ "- Return exactly one issue type from the list above" ++ nl
  ++ "- Use exact spelling and capitalization as shown" ++ nl
  ++ "- Choose the most relevant category based on the main concern" ++ nl
  ++ "- If no clear issue type matches, respond with " ++ dq
  ++ "General Question" ++ dq ++ nl
  ++ "- Do not add any explanation or additional text" ++ nl ++ nl
  ++ "Example responses:" ++ nl
  ++ dq ++ "Bug Report" ++ dq ++ nl
  ++ dq ++ "General" ++ dq ++ nl
  ++ dq ++ "Billing Question" ++ dq.

End PROMPTS.

(* ================================================================= *)
(** ** Asynchronous code

    An [async] function body is a tree of the operations it performs, with
    the rest of the body as the continuation of each: calling another async
    function, calling the two external collaborators ([req.json()] and
    [ai.run(...)], which answer with a promise), [Promise.all], and [await],
    whose second continuation is taken when the awaited promise rejects. *)

Record Gateway : Type := {
  id : string;
  skipCache : bool;
  cacheTtl : Z
}.

(** The three arguments of one [ai.run] call. *)
Record AICall : Type := {
  model : string;
  messages : list (string * Value);
  temperature : spec_float;
  max_tokens : Z;
  gateway : Gateway
}.

Inductive Async : Type :=
| Return (v : Value)
| Throw (e : Value)
| ReqJson (k : Value -> Async)
| AiRun (c : AICall) (k : Value -> Async)
| CallAsync (body : Async) (k : Value -> Async)
| PromiseAll (ps : list Value) (k : Value -> Async)
| Await (v : Value) (k : Value -> Async) (h : Value -> Async).

(** [try { m } catch (error) { h error }]: the handler takes over every
    throw of [m], also after an [await]; it does not reach into the body of
    an async function that [m] calls, whose throw rejects its own promise. *)
Fixpoint try_catch (m : Async) (h : Value -> Async) : Async :=
  match m with
  | Return v => Return v
  | Throw e => h e
  | ReqJson k => ReqJson (fun p => try_catch (k p) h)
  | AiRun c k => AiRun c (fun p => try_catch (k p) h)
  | CallAsync body k => CallAsync body (fun p => try_catch (k p) h)
  | PromiseAll ps k => PromiseAll ps (fun p => try_catch (k p) h)
  | Await v k r => Await v (fun x => try_catch (k x) h)
                           (fun e => try_catch (r e) h)
  end.

(** A synchronous expression as the last step of a body. *)
Definition complete (c : Completion) : Async :=
  match c with
  | inl v => Return v
  | inr e => Throw e
  end.

Notation "'await' x <- p ; k" := (Await p (fun x => k) Throw)
  (at level 10, x name, p at level 100, k at level 200).
Notation "'call' x <- f ; k" := (CallAsync f (fun x => k))
  (at level 10, x name, f at level 100, k at level 200).

(* ================================================================= *)
(** ** The handler *)

(** The inference binding [ctx.env.AI], whose [run] method is [AiRun]. *)
Inductive Ai : Type := AiBinding.

(** [ctx.env]: the inference binding and the gateway identifier, each of
    which may be unset. *)
Record Env : Type := {
  AI : option Ai;
  CLOUDFLARE_GATEWAY_ID : option string
}.

(** How a promise of a collaborator settles. *)
Inductive Settlement : Type :=
| Resolve (v : Value)
| Reject (e : Value).

(** An inbound request: the environment it runs in ([None] when the
    request context has none) and how [req.json()] settles, with the
    parsed body or with the parser's error. *)
Record NextRequest : Type := {
  env : option Env;
  json : Settlement
}.

Module AI_CONFIG.

Definition temperature : spec_float := S754_zero false.
Definition max_tokens : Z := 150.

End AI_CONFIG.

(** The expression [result.response.trim()]. *)
Definition response_trim (result : Value) : Completion :=
  do response <- Get result "response" ; call_trim response.

Definition makeAICall (ai : Ai) (gateway_id : string) (prompt : string)
    (text : Value) : Async :=
  AiRun {| model := AI_MODEL;
           messages := [ ("system", VString prompt); ("user", text) ];
           temperature := AI_CONFIG.temperature;
           max_tokens := AI_CONFIG.max_tokens;
           gateway := {| id := gateway_id; skipCache := false;
                         cacheTtl := 3600000 |} |}
    (fun promise =>
       await result <- promise ;
       complete (response_trim result)).

(** [NextResponse.json(body, { status })]; the status is 200 when none is
    given.  The body is kept as the value handed over, before it is
    written out as JSON text. *)
Definition NextResponse_json (body : Value) (status : Z) : Value :=
  VResponse status body.

(** The object literal assigned to [result]. *)
Definition AnalysisResult (sentimentResponse productsResponse issuesResponse
    : string) : Value :=
  VObject
    [ ("sentiment", property SENTIMENT_MAP (toLowerCase sentimentResponse));
      ("products", VArray (map VString (processProducts productsResponse)));
      ("issues", VArray (map VString (processIssues issuesResponse))) ].

(** The response of the guard on [text]. *)
Definition ValidationError : Value :=
  NextResponse_json (VObject [ ("error", VString "Text is required") ]) 400.

(** The response of the [catch] block. *)
Definition InferenceError (error : Value) : Value :=
  NextResponse_json
    (VObject
       [ ("error", VString "Failed to analyze text");
         ("details", VString match error with
                             | VError message => message
                             | _ => "Unknown error"
                             end) ])
    500.

(** The handler.  The [console.error] of the [catch] block writes to the
    log only and is left out. *)
Definition POST (req : NextRequest) : Async :=
  try_catch
    match env req with
    | Some {| AI := Some ai; CLOUDFLARE_GATEWAY_ID := Some gateway_id |} =>
        if strictEq gateway_id EmptyString then
          Throw (VError "Required environment variables are not set")
        else
          ReqJson (fun parsed =>
          await body <- parsed ;
          match Destructure body "text" with
          | inr e => Throw e
          | inl text =>
              if negb (truthy text) then Return ValidationError
              else
                call p1 <- makeAICall ai gateway_id PROMPTS.sentiment text ;
                call p2 <- makeAICall ai gateway_id PROMPTS.products text ;
                call p3 <- makeAICall ai gateway_id PROMPTS.issues text ;
                PromiseAll [p1; p2; p3] (fun all =>
                await responses <- all ;
                match responses with
                | VArray [ VString sentimentResponse;
                           VString productsResponse;
                           VString issuesResponse ] =>
                    Return
                      (NextResponse_json
                         (AnalysisResult sentimentResponse productsResponse
                            issuesResponse) 200)
                | _ => Throw (TypeError "undefined is not a function")
                end)
          end)
    | _ => Throw (VError "Required environment variables are not set")
    end
    (fun error => Return (InferenceError error)).

(* ================================================================= *)
(** ** The event loop

    Promises live in a store indexed by their identifier.  A task is an
    async function suspended at an [await]; it runs again, in a later
    turn, once the awaited promise has settled.  The promises of the
    [ai.run] calls are settled from outside, one delivery at a time, and
    after each delivery the suspended tasks that can run are run until none
    is left.  The trace records what can be observed from outside. *)

Inductive PromiseState : Type :=
| Pending
| Fulfilled (v : Value)
| Rejected (e : Value).

(** Where a promise comes from: the call of an async function, the call
    [req.json()], the [n]-th call of [ai.run], or [Promise.all(ps)]. *)
Inductive Origin : Type :=
| OfAsync
| OfJson
| OfAiRun (n : nat)
| OfAll (ps : list Value).

(** A suspended async function: what it awaits, how it goes on when that
    is fulfilled ([resume]) or rejected ([recover]), and the promise that
    its call returned ([owner]). *)
Record Task : Type := {
  awaited : Value;
  resume : Value -> Async;
  recover : Value -> Async;
  owner : nat
}.

(** The [n]-th call [ai.run(...)] with its arguments; the settlement of
    that call; the end of the async function whose promise is [p]. *)
Inductive Event : Type :=
| EInvoke (n : nat) (c : AICall)
| ESettle (n : nat) (o : Settlement)
| EDone (p : nat) (o : PromiseState).

(** [calls] counts the [ai.run] calls made so far; [inbound] is how
    [req.json()] settles for the request being served. *)
Record State : Type := {
  promises : list (Origin * PromiseState);
  tasks : list Task;
  trace : list Event;
  calls : nat;
  inbound : Settlement
}.

Definition settled (o : Settlement) : PromiseState :=
  match o with
  | Resolve v => Fulfilled v
  | Reject e => Rejected e
  end.

Definition status (st : State) (v : Value) : PromiseState :=
  match v with
  | VPromise p =>
      match nth_error (promises st) p with
      | Some (_, s) => s
      | None => Pending
      end
  | _ => Fulfilled v
  end.

(** The state of [Promise.all(ps)]: rejected as soon as one element is,
    fulfilled with the array of the values once every element is. *)
Fixpoint all_status (st : State) (ps : list Value) : PromiseState :=
  match ps with
  | [] => Fulfilled (VArray [])
  | p :: rest =>
      match status st p, all_status st rest with
      | Rejected e, _ => Rejected e
      | _, Rejected e => Rejected e
      | Fulfilled v, Fulfilled (VArray vs) => Fulfilled (VArray (v :: vs))
      | _, _ => Pending
      end
  end.

Definition with_promises (st : State) (ps : list (Origin * PromiseState))
    : State :=
  {| promises := ps; tasks := tasks st; trace := trace st;
     calls := calls st; inbound := inbound st |}.

Definition with_tasks (st : State) (ts : list Task) : State :=
  {| promises := promises st; tasks := ts; trace := trace st;
     calls := calls st; inbound := inbound st |}.

Definition log (e : Event) (st : State) : State :=
  {| promises := promises st; tasks := tasks st; trace := trace st ++ [e];
     calls := calls st; inbound := inbound st |}.

Definition alloc (o : Origin) (s : PromiseState) (st : State) : State :=
  with_promises st (promises st ++ [(o, s)]).

Fixpoint set_state (p : nat) (s : PromiseState)
    (ps : list (Origin * PromiseState)) : list (Origin * PromiseState) :=
  match ps, p with
  | [], _ => []
  | (o, _) :: rest, O => (o, s) :: rest
  | x :: rest, S p' => x :: set_state p' s rest
  end.

(** Every pending [Promise.all] follows its elements. *)
Definition refresh (st : State) : State :=
  with_promises st
    (map (fun entry =>
            match entry with
            | (OfAll ps, Pending) => (OfAll ps, all_status st ps)
            | _ => entry
            end)
         (promises st)).

Definition settle (p : nat) (s : PromiseState) (st : State) : State :=
  refresh (with_promises st (set_state p s (promises st))).

(** Run a body until it suspends or ends; [self] is the promise that the
    call of the body returned. *)
Fixpoint run (m : Async) (self : nat) (st : State) : State :=
  match m with
  | Return v => settle self (Fulfilled v) (log (EDone self (Fulfilled v)) st)
  | Throw e => settle self (Rejected e) (log (EDone self (Rejected e)) st)
  | ReqJson k =>
      let p := List.length (promises st) in
      run (k (VPromise p)) self (alloc OfJson (settled (inbound st)) st)
  | AiRun c k =>
      let p := List.length (promises st) in
      let n := calls st in
      let st1 := alloc (OfAiRun n) Pending (log (EInvoke n c) st) in
      run (k (VPromise p)) self
        {| promises := promises st1; tasks := tasks st1; trace := trace st1;
           calls := S n; inbound := inbound st1 |}
  | CallAsync body k =>
      let q := List.length (promises st) in
      let st1 := run body q (alloc OfAsync Pending st) in
      run (k (VPromise q)) self st1
  | PromiseAll ps k =>
      let a := List.length (promises st) in
      run (k (VPromise a)) self (alloc (OfAll ps) (all_status st ps) st)
  | Await v k h =>
      with_tasks st
        (tasks st ++ [ {| awaited := v; resume := k; recover := h;
                          owner := self |} ])
  end.

(** The first task whose awaited promise has settled, and the others. *)
Fixpoint pick (st : State) (ts : list Task) : option (Task * list Task) :=
  match ts with
  | [] => None
  | t :: rest =>
      match status st (awaited t) with
      | Pending =>
          match pick st rest with
          | Some (t', rest') => Some (t', t :: rest')
          | None => None
          end
      | _ => Some (t, rest)
      end
  end.

Definition quiescent (st : State) : Prop := pick st (tasks st) = None.

Definition turn (st : State) (t : Task) : State :=
  match status st (awaited t) with
  | Fulfilled v => run (resume t v) (owner t) st
  | Rejected e => run (recover t e) (owner t) st
  | Pending => st
  end.

Fixpoint drain (fuel : nat) (st : State) : State :=
  match fuel with
  | O => st
  | S fuel' =>
      match pick st (tasks st) with
      | None => st
      | Some (t, rest) => drain fuel' (turn (with_tasks st rest) t)
      end
  end.

(** Turns allowed after a delivery.  The handler and its three calls
    suspend five times in all, so no run comes near it: every run
    ends with no task left that could run ([run_quiescent]). *)
Definition microtask_fuel : nat := 16.

Fixpoint find_call (n : nat) (ps : list (Origin * PromiseState)) (i : nat)
    : option nat :=
  match ps with
  | [] => None
  | (OfAiRun m, Pending) :: rest =>
      if (m =? n)%nat then Some i else find_call n rest (S i)
  | _ :: rest => find_call n rest (S i)
  end.

(** The [n]-th [ai.run] call settles.  There is no such delivery when that
    call was never issued or has settled already. *)
Definition deliver (st : State) (d : nat * Settlement) : option State :=
  let (n, o) := d in
  match find_call n (promises st) 0 with
  | Some p =>
      Some (drain microtask_fuel
              (settle p (settled o) (log (ESettle n o) st)))
  | None => None
  end.

Fixpoint deliveries (st : State) (sched : list (nat * Settlement))
    : option State :=
  match sched with
  | [] => Some st
  | d :: rest =>
      match deliver st d with
      | Some st' => deliveries st' rest
      | None => None
      end
  end.

(** The runtime calls [POST(req)], which returns promise 0. *)
Definition start (req : NextRequest) : State :=
  drain microtask_fuel
    (run (POST req) 0
       {| promises := [(OfAsync, Pending)]; tasks := []; trace := [];
          calls := 0; inbound := json req |}).

(** The request [req] served while the inference calls settle as [sched]
    says, in that order. *)
Definition exec (req : NextRequest) (sched : list (nat * Settlement))
    : option State :=
  deliveries (start req) sched.

(** The response of the handler, once it has one. *)
Definition response (st : State) : PromiseState := status st (VPromise 0).

Fixpoint invocations (t : list Event) : list AICall :=
  match t with
  | [] => []
  | EInvoke _ c :: rest => c :: invocations rest
  | _ :: rest => invocations rest
  end.

Definition user_message (c : AICall) : option Value :=
  match own (messages c) "user" with
  | Some v => Some v
  | None => None
  end.


(* ================================================================= *)
(** ** Vocabulary of the properties *)

(** The request passes the two guards of the handler: the environment is
    set, the body parses, and its [text] is truthy. *)
Definition accepted (req : NextRequest) (ai : Ai) (gateway_id : string)
    (text : Value) : Prop :=
  env req = Some {| AI := Some ai; CLOUDFLARE_GATEWAY_ID := Some gateway_id |}
  /\ gateway_id <> EmptyString
  /\ exists body,
       json req = Resolve body
       /\ Destructure body "text" = inl text
       /\ truthy text = true.

(** The request passes the environment guard and its body parses to a
    value other than [null], with [text] as the value of the body's [text]
    property ([undefined] when the body has none). *)
Definition parsed (req : NextRequest) (ai : Ai) (gateway_id : string)
    (text : Value) : Prop :=
  env req = Some {| AI := Some ai; CLOUDFLARE_GATEWAY_ID := Some gateway_id |}
  /\ gateway_id <> EmptyString
  /\ exists body,
       json req = Resolve body /\ Destructure body "text" = inl text.

(** The arguments that [makeAICall] passes to [ai.run]. *)
Definition request_of (gateway_id prompt : string) (text : Value) : AICall :=
  {| model := AI_MODEL;
     messages := [ ("system", VString prompt); ("user", text) ];
     temperature := AI_CONFIG.temperature;
     max_tokens := AI_CONFIG.max_tokens;
     gateway := {| id := gateway_id; skipCache := false;
                   cacheTtl := 3600000 |} |}.

(** What one [makeAICall] gives when its [ai.run] call settles with [o]:
    the trimmed completion, or the failure that rejects it. *)
Definition result_of (o : Settlement) : Completion :=
  match o with
  | Resolve v => response_trim v
  | Reject e => throw e
  end.

(** The first failure among the deliveries, in the order of the
    schedule. *)
Fixpoint first_failure (sched : list (nat * Settlement)) : option Value :=
  match sched with
  | [] => None
  | (_, o) :: rest =>
      match result_of o with
      | inr e => Some e
      | inl _ => first_failure rest
      end
  end.

(** The completion that call [n] has delivered, if it has. *)
Fixpoint delivered (n : nat) (sched : list (nat * Settlement))
    : option Value :=
  match sched with
  | [] => None
  | (m, o) :: rest =>
      if (m =? n)%nat then
        match result_of o with
        | inl v => Some v
        | inr _ => None
        end
      else delivered n rest
  end.

(** All three calls have delivered the completions [s], [p] and [i]. *)
Definition completions (sched : list (nat * Settlement))
    (s p i : string) : Prop :=
  delivered 0 sched = Some (VString s)
  /\ delivered 1 sched = Some (VString p)
  /\ delivered 2 sched = Some (VString i).

(** The response to expect after the deliveries of [sched]. *)
Definition outcome (sched : list (nat * Settlement)) : PromiseState :=
  match first_failure sched with
  | Some e => Fulfilled (InferenceError e)
  | None =>
      match delivered 0 sched, delivered 1 sched, delivered 2 sched with
      | Some (VString s), Some (VString p), Some (VString i) =>
          Fulfilled (NextResponse_json (AnalysisResult s p i) 200)
      | _, _, _ => Pending
      end
  end.

(** A schedule that the three calls can follow: every delivery is for a
    call that is still open. *)
Fixpoint realizable_from (open : list nat) (sched : list (nat * Settlement))
    : bool :=
  match sched with
  | [] => true
  | (n, _) :: rest =>
      if existsb (Nat.eqb n) open
      then realizable_from (filter (fun m => negb (m =? n)%nat) open) rest
      else false
  end.

Definition realizable : list (nat * Settlement) -> bool :=
  realizable_from [0; 1; 2].

Fixpoint settles (t : list Event) : list (nat * Settlement) :=
  match t with
  | [] => []
  | ESettle n o :: rest => (n, o) :: settles rest
  | _ :: rest => settles rest
  end.

(** The trace cut at the moment the handler (promise 0) ends. *)
Fixpoint split_at_response (t : list Event)
    : option (list Event * PromiseState * list Event) :=
  match t with
  | [] => None
  | EDone 0 o :: rest => Some ([], o, rest)
  | e :: rest =>
      match split_at_response rest with
      | Some (before, o, after) => Some (e :: before, o, after)
      | None => None
      end
  end.

(** What holds of every run of an accepted request. *)
Record Run (gateway_id : string) (text : Value)
    (sched : list (nat * Settlement)) (st : State) : Prop := {
  run_calls :
    firstn 3 (trace st) =
    [ EInvoke 0 (request_of gateway_id PROMPTS.sentiment text);
      EInvoke 1 (request_of gateway_id PROMPTS.products text);
      EInvoke 2 (request_of gateway_id PROMPTS.issues text) ];
  run_no_more : invocations (skipn 3 (trace st)) = [];
  run_response : response st = outcome sched;
  run_quiescent : quiescent st;
  run_settles : settles (trace st) = sched;
  run_barrier :
    forall b, response st = Fulfilled (VResponse 200 b) ->
    exists before after,
      split_at_response (trace st)
      = Some (before, Fulfilled (VResponse 200 b), after)
      /\ forall n, n < 3 -> exists v, In (ESettle n (Resolve v)) before
}.

(** The code unit [c] occurs in [s]. *)
Fixpoint has (c : ascii) (s : string) : bool :=
  match s with
  | EmptyString => false
  | String d s' => Ascii.eqb d c || has c s'
  end.

(** The filter of [processProducts]: the segment contains, without regard
    to case, the name of a product of the catalog. *)
Definition mentions_product (segment : string) : bool :=
  existsb (fun name => includes (toLowerCase segment) (toLowerCase name))
          CLOUDFLARE_PRODUCTS.

(** The products normalizer in the words of its description: nothing when
    the trimmed completion is [none] in any case, otherwise the trimmed
    comma-separated segments that mention a product. *)
Definition products_described (completion : string) : list string :=
  if String.eqb (toLowerCase (trim completion)) "none" then []
  else filter mentions_product (map trim (split comma completion)).

(** The [sentiment] property of a result object. *)
Definition sentiment_of (body : Value) : Value :=
  match body with
  | VObject props => property props "sentiment"
  | _ => VUndefined
  end.

Definition products_of (body : Value) : Value :=
  match body with
  | VObject props => property props "products"
  | _ => VUndefined
  end.

(** What [f] sees of the state that a run ends in. *)
Definition observe {A : Type} (f : State -> A) (req : NextRequest)
    (sched : list (nat * Settlement)) : option A :=
  option_map f (exec req sched).

(** *** Sample inputs *)

Definition sample_env : option Env :=
  Some {| AI := Some AiBinding; CLOUDFLARE_GATEWAY_ID := Some "gateway" |}.

Definition request_with (text : Value) : NextRequest :=
  {| env := sample_env; json := Resolve (VObject [ ("text", text) ]) |}.

Definition answer (completion : string) : Settlement :=
  Resolve (VObject [ ("response", VString completion) ]).

(** *** Further vocabulary: the guards before the calls *)

(** The environment guard of the handler lets the request through. *)
Definition configured (req : NextRequest) : bool :=
  match env req with
  | Some {| AI := Some _; CLOUDFLARE_GATEWAY_ID := Some gateway_id |} =>
      negb (strictEq gateway_id EmptyString)
  | _ => false
  end.

(** What [const { text } = await req.json()] throws, if it throws: the
    rejection of [req.json()], or the error of destructuring a body that
    is [null]. *)
Definition body_error (j : Settlement) : option Value :=
  match j with
  | Reject e => Some e
  | Resolve body =>
      match Destructure body "text" with
      | inr e => Some e
      | inl _ => None
      end
  end.

(** The [issues] property of a result object. *)
Definition issues_of (body : Value) : Value :=
  match body with
  | VObject props => property props "issues"
  | _ => VUndefined
  end.

(* ================================================================= *)
(** ** The client component ([src/components/text-analyzer.tsx])

    The component keeps three state cells; its handlers are functions on
    the cells, and what they do to the outside (toasts, the log, the
    request) is a list of effects.  [handleAnalyze] suspends once, at
    [fetch]; what is left of it then runs on the cells as they are when
    the answer arrives. *)

(** [s.slice(from, to)] for indices that are not negative. *)
Definition slice (s : string) (from to : nat) : string :=
  substring from (to - from) s.

Module TextAnalyzer.

Definition MAX_CHARS : nat := 300.

Inductive Icon : Type := Smile | Frown | Meh.

Definition getSentimentIcon (label : Value) : Icon :=
  match label with
  | VString s =>
      if strictEq s "Positive" then Smile
      else if strictEq s "Negative" then Frown
      else Meh
  | _ => Meh
  end.

(** The cells of [useState]: [analysis] is [null] until a result is
    set. *)
Record Hooks : Type := {
  text : string;
  isAnalyzing : bool;
  analysis : Value
}.

Definition setText (v : string) (s : Hooks) : Hooks :=
  {| text := v; isAnalyzing := isAnalyzing s; analysis := analysis s |}.

Definition setIsAnalyzing (b : bool) (s : Hooks) : Hooks :=
  {| text := text s; isAnalyzing := b; analysis := analysis s |}.

Definition setAnalysis (v : Value) (s : Hooks) : Hooks :=
  {| text := text s; isAnalyzing := isAnalyzing s; analysis := v |}.

(** The second argument of [fetch].  The body is the JSON text of
    [JSON.stringify({ text })], kept as the value that [req.json()] reads
    from it. *)
Record RequestInit : Type := {
  method : string;
  headers : list (string * string);
  body : Value
}.

Inductive Effect : Type :=
| toast_error (message : string)
| toast_success (message : string)
| console_error (label : string) (error : Value)
| fetch (url : string) (init : RequestInit).

(** How the request ends: [fetch] rejects, or it gives a response with its
    [ok] flag and the way its [json()] settles. *)
Inductive FetchResult : Type :=
| NetworkFailure (e : Value)
| HttpResponse (ok : bool) (json : Settlement).

(** The [catch] block. *)
Definition caught (error : Value) (s : Hooks) : Hooks * list Effect :=
  (s, [ toast_error "Failed to analyze text. Please try again.";
        console_error "Analysis error:" error ]).

(** [handleAnalyze] from the answer of [fetch] on, with its [finally]. *)
Definition handleAnalyze_resume (r : FetchResult) (s : Hooks)
    : Hooks * list Effect :=
  let (s1, effects) :=
    match r with
    | NetworkFailure e => caught e s
    | HttpResponse false _ => caught (VError "Failed to analyze text") s
    | HttpResponse true (Reject e) => caught e s
    | HttpResponse true (Resolve result) =>
        (setAnalysis result s, [ toast_success "Analysis complete!" ])
    end in
  (setIsAnalyzing false s1, effects).

(** [handleAnalyze] up to its first [await]: it has returned, or it waits
    for the answer of the request it has sent. *)
Inductive Started : Type :=
| Returned (s : Hooks) (effects : list Effect)
| Fetching (s : Hooks) (effects : list Effect)
    (k : FetchResult -> Hooks -> Hooks * list Effect).

Definition handleAnalyze (s : Hooks) : Started :=
  if negb (truthy (VString (trim (text s)))) then
    Returned s [ toast_error "Please enter some text to analyze" ]
  else
    Fetching (setIsAnalyzing true s)
      [ fetch "/api/analyze"
          {| method := "POST";
             headers := [ ("Content-Type", "application/json") ];
             body := VObject [ ("text", VString (text s)) ] |} ]
      handleAnalyze_resume.

(** [onChange] of the text area. *)
Definition onChange (value : string) (s : Hooks) : Hooks :=
  setText (slice value 0 MAX_CHARS) s.

(** [disabled] of the button. *)
Definition disabled (s : Hooks) : bool :=
  isAnalyzing s || negb (truthy (VString (trim (text s)))).

(** The expression [getSentimentIcon(analysis.sentiment.label)] of the
    result card.  (A property whose value is [undefined] is left out of
    the JSON text of the response, and reads as [undefined] here as
    well.) *)
Definition sentiment_icon (analysis : Value) : Icon + Value :=
  match (do sentiment <- Get analysis "sentiment" ; Get sentiment "label")
  with
  | inl label => inl (getSentimentIcon label)
  | inr e => inr e
  end.

(** The component in use: the user types, clicks the button when it is
    not disabled, and the answer of a request arrives. *)
Inductive UIEvent : Type :=
| Change (value : string)
| Click
| Arrive (r : FetchResult).

Record UI : Type := {
  hooks : Hooks;
  waiting : list (FetchResult -> Hooks -> Hooks * list Effect);
  effects : list Effect
}.

Definition mounted : UI :=
  {| hooks := {| text := EmptyString; isAnalyzing := false;
                 analysis := VNull |};
     waiting := [];
     effects := [] |}.

Definition ui_step (u : UI) (e : UIEvent) : UI :=
  match e with
  | Change value =>
      {| hooks := onChange value (hooks u); waiting := waiting u;
         effects := effects u |}
  | Click =>
      if disabled (hooks u) then u
      else
        match handleAnalyze (hooks u) with
        | Returned s eff =>
            {| hooks := s; waiting := waiting u;
               effects := effects u ++ eff |}
        | Fetching s eff k =>
            {| hooks := s; waiting := waiting u ++ [k];
               effects := effects u ++ eff |}
        end
  | Arrive r =>
      match waiting u with
      | [] => u
      | k :: rest =>
          let (s, eff) := k r (hooks u) in
          {| hooks := s; waiting := rest; effects := effects u ++ eff |}
      end
  end.

Definition ui_run (events : list UIEvent) : UI :=
  fold_left ui_step events mounted.

End TextAnalyzer.

(* ================================================================= *)
(** ** The theme switch ([src/components/theme-toggle.tsx]) *)

Module ThemeToggle.

(** [theme === 'dark'], for the [theme] that [useTheme] gives. *)
Definition isDark (theme : Value) : bool :=
  match theme with
  | VString s => strictEq s "dark"
  | _ => false
  end.

(** The theme that [onClick] sets. *)
Definition onClick (theme : Value) : Value :=
  VString (if isDark theme then "light" else "dark").

End ThemeToggle.

(** What holds of the component after any events. *)
Record Kept (u : TextAnalyzer.UI) : Prop := {
  kept_limit :
    String.length (TextAnalyzer.text (TextAnalyzer.hooks u))
    <= TextAnalyzer.MAX_CHARS;
  kept_waiting :
    (TextAnalyzer.isAnalyzing (TextAnalyzer.hooks u) = true
     /\ TextAnalyzer.waiting u = [TextAnalyzer.handleAnalyze_resume])
    \/ (TextAnalyzer.isAnalyzing (TextAnalyzer.hooks u) = false
        /\ TextAnalyzer.waiting u = []);
  kept_requests :
    forall url init,
      In (TextAnalyzer.fetch url init) (TextAnalyzer.effects u) ->
      url = "/api/analyze"
      /\ TextAnalyzer.method init = "POST"
      /\ TextAnalyzer.headers init
         = [ ("Content-Type", "application/json") ]
      /\ exists t,
           TextAnalyzer.body init = VObject [ ("text", VString t) ]
           /\ trim t <> EmptyString
           /\ String.length t <= TextAnalyzer.MAX_CHARS
}.

(** What has been typed when the events are over: the value of the last
    change, cut as [onChange] cuts it, and the empty text when there was
    no change. *)
Definition typed (events : list TextAnalyzer.UIEvent) : string :=
  fold_left
    (fun t e =>
       match e with
       | TextAnalyzer.Change value => slice value 0 TextAnalyzer.MAX_CHARS
       | _ => t
       end)
    events EmptyString.


(* ================================================================= *)
(** * Properties *)

(** ** The string primitives *)

Local Open Scope string_scope.

Section StringFacts.

Lemma append_empty_r (s : string) : s ++ EmptyString = s.
Proof. induction s as [|c s IH]; simpl; [reflexivity | now rewrite IH]. Qed.

Lemma append_is_empty (s t : string) : s ++ t = EmptyString -> s = EmptyString /\ t = EmptyString.
Proof. destruct s; simpl; [auto | discriminate]. Qed.

Lemma startsWith_spec (p s : string) :
  startsWith s p = true <-> exists post, s = p ++ post.
Proof.
  revert s; induction p as [|a p IH]; intros s.
  - destruct s; simpl; split; eauto.
  - destruct s as [|b s]; simpl.
    + split; [discriminate | intros [post H]; discriminate].
    + rewrite andb_true_iff, Ascii.eqb_eq, IH. split.
      * intros [-> [post ->]]. now exists post.
      * intros [post H]. injection H as -> ->. eauto.
Qed.

(** [includes] is the substring test. *)
Lemma includes_spec (sub s : string) :
  includes s sub = true <-> exists pre post, s = pre ++ sub ++ post.
Proof.
  induction s as [|c s IH].
  - change (includes EmptyString sub) with (startsWith EmptyString sub || false).
    rewrite orb_false_r, startsWith_spec. split.
    + intros [post H]. now exists EmptyString, post.
    + intros (pre & post & H). symmetry in H.
      apply append_is_empty in H as [-> H].
      apply append_is_empty in H as [-> ->]. now exists EmptyString.
  - change (includes (String c s) sub)
      with (startsWith (String c s) sub || includes s sub).
    rewrite orb_true_iff, startsWith_spec, IH. split.
    + intros [[post H] | (pre & post & H)].
      * now exists EmptyString, post.
      * exists (String c pre), post. simpl. now rewrite H.
    + intros (pre & post & H). destruct pre as [|d pre]; simpl in H.
      * left. now exists post.
      * right. injection H as _ H. now exists pre, post.
Qed.

Lemma split_shape (sep : ascii) (s : string) :
  exists seg rest, split sep s = seg :: rest.
Proof.
  induction s as [|c s (seg & rest & IH)]; simpl; eauto.
  destruct (Ascii.eqb c sep); eauto. rewrite IH. eauto.
Qed.

Lemma join_head (sep : string) (c : ascii) (seg : string)
    (rest : list string) :
  join sep (String c seg :: rest) = String c (join sep (seg :: rest)).
Proof. destruct rest; reflexivity. Qed.

(** Joining the segments with the separator gives the string back. *)
Lemma split_join (sep : ascii) (s : string) :
  join (String sep EmptyString) (split sep s) = s.
Proof.
  induction s as [|c s IH]; [reflexivity|]. simpl.
  destruct (split_shape sep s) as (seg & rest & E). rewrite E in *.
  destruct (Ascii.eqb c sep) eqn:Ec.
  - apply Ascii.eqb_eq in Ec as ->.
    change (join (String sep EmptyString) (EmptyString :: seg :: rest))
      with (String sep (join (String sep EmptyString) (seg :: rest))).
    now rewrite IH.
  - rewrite join_head. now rewrite IH.
Qed.

(** No segment contains the separator. *)
Lemma split_segments (sep : ascii) (s : string) :
  Forall (fun seg => has sep seg = false) (split sep s).
Proof.
  induction s as [|c s IH]; simpl.
  - repeat constructor.
  - destruct (Ascii.eqb c sep) eqn:Ec.
    + constructor; [reflexivity | exact IH].
    + destruct (split sep s) as [|seg rest].
      * repeat constructor. simpl. now rewrite Ec.
      * inversion IH; subst. constructor; [|assumption].
        simpl. now rewrite Ec.
Qed.

Lemma split_without (sep : ascii) (s : string) :
  has sep s = false -> split sep s = [s].
Proof.
  induction s as [|c s IH]; simpl; [reflexivity|].
  intros H. apply orb_false_iff in H as [Hc Hs].
  rewrite Hc, (IH Hs). reflexivity.
Qed.

Lemma whitespace_differs (c d : ascii) :
  isWhiteSpace c = false -> isWhiteSpace d = true -> Ascii.eqb d c = false.
Proof.
  intros Hc Hd. apply Ascii.eqb_neq. intros ->. congruence.
Qed.

Lemma has_trimStart (c : ascii) (s : string) :
  isWhiteSpace c = false -> has c (trimStart s) = has c s.
Proof.
  intros Hc. induction s as [|d s IH]; simpl; [reflexivity|].
  destruct (isWhiteSpace d) eqn:Hd; [|reflexivity].
  now rewrite (whitespace_differs c d Hc Hd), IH.
Qed.

Lemma has_trimEnd (c : ascii) (s : string) :
  isWhiteSpace c = false -> has c (trimEnd s) = has c s.
Proof.
  intros Hc. induction s as [|d s IH]; simpl; [reflexivity|].
  destruct (trimEnd s) as [|x t] eqn:E.
  - simpl in IH. rewrite <- IH.
    destruct (isWhiteSpace d) eqn:Hd; simpl.
    + now rewrite (whitespace_differs c d Hc Hd).
    + reflexivity.
  - rewrite <- IH. reflexivity.
Qed.

(** Trimming removes white space only. *)
Lemma has_trim (c : ascii) (s : string) :
  isWhiteSpace c = false -> has c (trim s) = has c s.
Proof.
  intros Hc. unfold trim. now rewrite has_trimEnd, has_trimStart.
Qed.

Lemma lowerChar_comma (d : ascii) :
  Ascii.eqb (lowerChar d) comma = Ascii.eqb d comma.
Proof. destruct d as [[] [] [] [] [] [] [] []]; reflexivity. Qed.

Lemma has_comma_toLowerCase (s : string) :
  has comma (toLowerCase s) = has comma s.
Proof.
  induction s as [|d s IH]; simpl; [reflexivity|].
  now rewrite lowerChar_comma, IH.
Qed.

Lemma lowerChar_idem (c : ascii) : lowerChar (lowerChar c) = lowerChar c.
Proof. destruct c as [[] [] [] [] [] [] [] []]; reflexivity. Qed.

Lemma toLowerCase_idem (s : string) :
  toLowerCase (toLowerCase s) = toLowerCase s.
Proof.
  induction s as [|c s IH]; simpl; [reflexivity|].
  now rewrite lowerChar_idem, IH.
Qed.

Lemma lowerChar_whitespace (c : ascii) :
  isWhiteSpace (lowerChar c) = isWhiteSpace c.
Proof. destruct c as [[] [] [] [] [] [] [] []]; reflexivity. Qed.

Lemma trimStart_toLowerCase (s : string) :
  toLowerCase (trimStart s) = trimStart (toLowerCase s).
Proof.
  induction s as [|c s IH]; simpl; [reflexivity|].
  rewrite lowerChar_whitespace. now destruct (isWhiteSpace c).
Qed.

Lemma trimEnd_toLowerCase (s : string) :
  toLowerCase (trimEnd s) = trimEnd (toLowerCase s).
Proof.
  induction s as [|c s IH]; simpl; [reflexivity|].
  rewrite <- IH, lowerChar_whitespace.
  destruct (trimEnd s); simpl; [|reflexivity].
  now destruct (isWhiteSpace c).
Qed.

(** Trimming and lower-casing commute. *)
Lemma trim_toLowerCase (s : string) :
  toLowerCase (trim s) = trim (toLowerCase s).
Proof.
  unfold trim. now rewrite trimEnd_toLowerCase, trimStart_toLowerCase.
Qed.

(** A name with an upper-case letter is the lower-case form of nothing. *)
Lemma not_lower_case (name s : string) :
  toLowerCase name <> name -> String.eqb name (toLowerCase s) = false.
Proof.
  intros H. apply String.eqb_neq. intros E. apply H.
  rewrite E. apply toLowerCase_idem.
Qed.

Lemma some_strictEq (x : string) (labels : list string) :
  some (fun label => strictEq label x) labels = true <-> In x labels.
Proof.
  unfold some, strictEq. rewrite existsb_exists. split.
  - intros (l & Hin & E). apply String.eqb_eq in E. now subst.
  - intros Hin. exists x. split; [assumption | apply String.eqb_refl].
Qed.

End StringFacts.

(* ================================================================= *)
(** ** The normalizers *)

Section Normalizers.

Lemma processProducts_unfold (response : string) :
  processProducts response =
  if strictEq (toLowerCase response) "none" then []
  else filter mentions_product (map trim (split comma response)).
Proof. reflexivity. Qed.

Lemma mentions_product_spec (segment : string) :
  mentions_product segment = true <->
  exists name pre post,
    In name CLOUDFLARE_PRODUCTS
    /\ toLowerCase segment = pre ++ toLowerCase name ++ post.
Proof.
  unfold mentions_product. rewrite existsb_exists. split.
  - intros (name & Hin & H). apply includes_spec in H as (pre & post & H).
    now exists name, pre, post.
  - intros (name & pre & post & Hin & H). exists name. split; [assumption|].
    apply includes_spec. now exists pre, post.
Qed.

(** A completion that is [none] once trimmed has no comma, and [none]
    mentions no product. *)
Lemma processProducts_none (response : string) :
  toLowerCase (trim response) = "none" -> processProducts response = [].
Proof.
  intros H. rewrite processProducts_unfold.
  destruct (strictEq (toLowerCase response) "none"); [reflexivity|].
  assert (Hc : has comma response = false).
  { rewrite <- (has_trim comma response) by reflexivity.
    rewrite <- has_comma_toLowerCase, H. reflexivity. }
  rewrite (split_without comma response Hc).
  change (filter mentions_product (map trim [response]))
    with (if mentions_product (trim response) then [trim response] else []).
  unfold mentions_product. rewrite H. reflexivity.
Qed.

Lemma processProducts_refines (response : string) :
  processProducts response = products_described response.
Proof.
  unfold products_described.
  destruct (String.eqb (toLowerCase (trim response)) "none") eqn:E2.
  - apply String.eqb_eq in E2. now apply processProducts_none.
  - rewrite processProducts_unfold. unfold strictEq.
    destruct (String.eqb (toLowerCase response) "none") eqn:E1;
      [|reflexivity].
    apply String.eqb_eq in E1. apply String.eqb_neq in E2.
    exfalso. apply E2. rewrite trim_toLowerCase, E1. reflexivity.
Qed.

Lemma processIssues_member (response : string) :
  In (trim response) ISSUE_LABELS ->
  processIssues response = [trim response].
Proof.
  intros H. unfold processIssues.
  apply some_strictEq in H. now rewrite H.
Qed.

Lemma processIssues_fallback (response : string) :
  ~ In (trim response) ISSUE_LABELS ->
  processIssues response = ["General Question"].
Proof.
  intros H. unfold processIssues.
  destruct (some (fun label => strictEq label (trim response)) ISSUE_LABELS)
    eqn:E; [|reflexivity].
  apply some_strictEq in E. contradiction.
Qed.

Lemma In_dec_label (x : string) :
  In x ISSUE_LABELS \/ ~ In x ISSUE_LABELS.
Proof.
  destruct (in_dec string_dec x ISSUE_LABELS); [now left | now right].
Qed.

(** The labels are trimmed already. *)
Lemma labels_trimmed (label : string) :
  In label ISSUE_LABELS -> trim label = label.
Proof.
  intros H. simpl in H.
  repeat (destruct H as [<- | H]; [reflexivity|]). contradiction.
Qed.

(** [SENTIMENT_MAP[key]] for a lower-cased key: the three entries of
    the table, the two members of [Object.prototype] whose names are in
    lower case, and [undefined] for every other key. *)
Lemma sentiment_lookup (completion : string) :
  property SENTIMENT_MAP (toLowerCase completion) =
  let key := toLowerCase completion in
  if String.eqb "positive" key then
    VObject [ ("label", VString "Positive");
              ("color", VString
                 "bg-green-500/10 text-green-500 hover:bg-green-500/20") ]
  else if String.eqb "negative" key then
    VObject [ ("label", VString "Negative");
              ("color", VString
                 "bg-red-500/10 text-red-500 hover:bg-red-500/20") ]
  else if String.eqb "neutral" key then
    VObject [ ("label", VString "Neutral");
              ("color", VString
                 "bg-blue-500/10 text-blue-500 hover:bg-blue-500/20") ]
  else if String.eqb "constructor" key then VNative "Object"
  else if String.eqb "__proto__" key then VNative "Object.prototype"
  else VUndefined.
Proof.
  cbv zeta. unfold property, SENTIMENT_MAP, Object_prototype, own, strictEq.
  destruct (String.eqb "positive" (toLowerCase completion));
    [reflexivity|].
  destruct (String.eqb "negative" (toLowerCase completion));
    [reflexivity|].
  destruct (String.eqb "neutral" (toLowerCase completion));
    [reflexivity|].
  destruct (String.eqb "constructor" (toLowerCase completion));
    [reflexivity|].
  destruct (String.eqb "__proto__" (toLowerCase completion));
    [reflexivity|].
  rewrite !not_lower_case by (vm_compute; discriminate).
  reflexivity.
Qed.

End Normalizers.

(** C2.  The products normalizer returns the empty sequence when the
    trimmed completion is [none] in any case, and otherwise exactly the
    comma-separated, trimmed segments that contain, without regard to case,
    the name of a catalog entry, in the order of the completion and with
    repetitions kept: it is [products_described].  The segments are those
    that joined by commas give the completion back; [none] in any case
    gives the empty sequence, "WAF, Workers" gives WAF then Workers, and
    "Foo, R2" gives R2 alone. *)
Theorem processProducts_described :
  (forall completion,
      processProducts completion = products_described completion)
  /\ (forall completion,
         toLowerCase (trim completion) = "none" ->
         processProducts completion = [])
  /\ (forall segment,
         mentions_product segment = true <->
         exists name pre post,
           In name CLOUDFLARE_PRODUCTS
           /\ toLowerCase segment = pre ++ toLowerCase name ++ post)
  /\ (forall completion,
         join "," (split comma completion) = completion
         /\ Forall (fun seg => has comma seg = false)
                   (split comma completion))
  /\ processProducts "none" = []
  /\ processProducts "NONE" = []
  /\ processProducts "None" = []
  /\ processProducts "WAF, Workers" = ["WAF"; "Workers"]
  /\ processProducts "Foo, R2" = ["R2"]
  /\ processProducts "r2, Foo, R2, r2" = ["r2"; "R2"; "r2"].
Proof.
  split; [exact processProducts_refines|].
  split; [exact processProducts_none|].
  split; [exact mentions_product_spec|].
  split; [intros c; split; [apply split_join | apply split_segments]|].
  repeat split; reflexivity.
Qed.

Lemma processProducts_described_witness :
  toLowerCase (trim " NoNe ") = "none" /\ processProducts " NoNe " = [].
Proof.
  split; [reflexivity|].
  destruct processProducts_described as (_ & H & _).
  apply H. reflexivity.
Defined.

(** C3.  The issues normalizer returns a sequence of exactly one element:
    the trimmed completion when it is, letter for letter, one of the
    taxonomy labels, and the fallback "General Question" otherwise; so the
    element is a taxonomy label or the fallback.  "Bug Report" gives
    itself and "not a category" gives the fallback. *)
Theorem processIssues_described :
  (forall completion,
      In (trim completion) ISSUE_LABELS ->
      processIssues completion = [trim completion])
  /\ (forall completion,
         ~ In (trim completion) ISSUE_LABELS ->
         processIssues completion = ["General Question"])
  /\ (forall completion,
         exists label,
           processIssues completion = [label]
           /\ (In label ISSUE_LABELS \/ label = "General Question"))
  /\ processIssues "Bug Report" = ["Bug Report"]
  /\ processIssues "not a category" = ["General Question"]
  /\ processIssues "bug report" = ["General Question"].
Proof.
  split; [exact processIssues_member|].
  split; [exact processIssues_fallback|].
  split.
  - intros c. destruct (In_dec_label (trim c)) as [H | H].
    + exists (trim c). split; [now apply processIssues_member | now left].
    + exists "General Question".
      split; [now apply processIssues_fallback | now right].
  - repeat split; reflexivity.
Qed.

Lemma processIssues_described_witness :
  In (trim "  API Issue ") ISSUE_LABELS
  /\ processIssues "  API Issue " = [trim "  API Issue "].
Proof.
  assert (H : In (trim "  API Issue ") ISSUE_LABELS)
    by (simpl; repeat first [left; reflexivity | right]).
  split; [exact H|].
  destruct processIssues_described as (Hm & _).
  exact (Hm "  API Issue " H).
Defined.

(** C10.  The issues normalizer is idempotent on its own output: when it
    returns the one-element sequence of [label] for some completion, it
    returns the same sequence for [label], be [label] a taxonomy label or
    the fallback "General Question", which is no taxonomy label and maps
    to itself through the fallback branch. *)
Theorem processIssues_idempotent (completion label : string) :
  processIssues completion = [label] -> processIssues label = [label].
Proof.
  intros H. destruct (In_dec_label (trim completion)) as [Hin | Hout].
  - rewrite (processIssues_member _ Hin) in H. injection H as <-.
    rewrite processIssues_member; rewrite (labels_trimmed _ Hin);
      [reflexivity | assumption].
  - rewrite (processIssues_fallback _ Hout) in H. injection H as <-.
    reflexivity.
Qed.

Lemma processIssues_idempotent_witness :
  processIssues "no such label" = ["General Question"]
  /\ processIssues "General Question" = ["General Question"].
Proof.
  split; [reflexivity|].
  apply (processIssues_idempotent "no such label" "General Question").
  reflexivity.
Defined.

(* ================================================================= *)
(** ** Runs of the handler *)

Lemma drain_step (fuel : nat) (st : State) :
  drain (S fuel) st =
  match pick st (tasks st) with
  | None => st
  | Some (t, rest) => drain fuel (turn (with_tasks st rest) t)
  end.
Proof. reflexivity. Qed.

Lemma deliveries_cons (st : State) (d : nat * Settlement)
    (rest : list (nat * Settlement)) :
  deliveries st (d :: rest) =
  match deliver st d with
  | Some st' => deliveries st' rest
  | None => None
  end.
Proof. reflexivity. Qed.

(** [result.response.trim()] gives a string when it gives a value. *)
Lemma response_trim_string (v r : Value) :
  response_trim v = inl r -> exists s, r = VString s.
Proof.
  unfold response_trim, andThen.
  destruct (Get v "response") as [x|e]; [|discriminate].
  destruct x; simpl; intros H; inversion H; eauto.
Qed.

(** Evaluation of the event loop, one stage at a time: the turns of
    [drain] are taken by [drain_step], and the tests on the inputs are
    settled by the hypotheses or by cases before the next stage. *)
Ltac ev :=
  lazy -[drain deliveries Get Destructure truthy response_trim
         PROMPTS.sentiment
         PROMPTS.products PROMPTS.issues AnalysisResult InferenceError
         ValidationError].

Ltac ev_in H :=
  lazy -[drain deliveries Get Destructure truthy response_trim
         PROMPTS.sentiment
         PROMPTS.products PROMPTS.issues AnalysisResult InferenceError
         ValidationError] in H.

Ltac case_response :=
  match goal with
  | |- context [response_trim ?v] =>
      let E := fresh "E" in
      let r := fresh "r" in
      destruct (response_trim v) as [r|r] eqn:E;
      [ let s := fresh "s" in
        destruct (response_trim_string _ _ E) as [s ->] | ]
  end.

Ltac turns := repeat first [ case_response; ev | rewrite drain_step; ev ].

Ltac use_responses :=
  repeat match goal with
         | E : response_trim _ = _ |- _ => rewrite E
         end.

Ltac find_settle := simpl; repeat first [ left; reflexivity | right ].

Ltac run_leaf :=
  change (deliveries ?st []) with (Some st); cbv iota beta;
  split; [ | reflexivity ];
  constructor;
  [ reflexivity
  | reflexivity
  | ev; use_responses; reflexivity
  | reflexivity
  | reflexivity
  | let b := fresh "b" in
    let Hb := fresh "Hb" in
    intros b Hb; ev_in Hb; unfold InferenceError, NextResponse_json in Hb;
    first
      [ discriminate Hb
      | injection Hb as <-; eexists; eexists; split;
        [ reflexivity
        | let n := fresh "n" in
          let Hn := fresh "Hn" in
          intros n Hn; destruct n as [|[|[|n]]];
          [ eexists; find_settle .. | exfalso; lia ] ] ] ].

Ltac run_cases sched :=
  let n := fresh "n" in
  let o := fresh "o" in
  destruct sched as [|[n o] sched];
  [ run_leaf
  | rewrite deliveries_cons;
    destruct n as [|[|[|n]]]; destruct o as [? | ?]; ev;
    first [ reflexivity | turns; run_cases sched ] ].

Ltac enter_handler req Hg :=
  destruct req as [? ?]; simpl in *; subst;
  unfold exec, start, POST; cbn [env json];
  match type of Hg with
  | ?g <> _ =>
      let H := fresh "H" in
      assert (H : strictEq g EmptyString = false)
        by (apply String.eqb_neq; exact Hg);
      rewrite H
  end.

(** Every schedule of an accepted request, by cases on the deliveries:
    which call, and whether it rejects, answers with a malformed result
    or answers with a completion. *)
Lemma exec_accepted (req : NextRequest) (ai : Ai) (g : string)
    (text : Value) (A : accepted req ai g text)
    (sched : list (nat * Settlement)) :
  match exec req sched with
  | Some st => Run g text sched st /\ realizable sched = true
  | None => realizable sched = false
  end.
Proof.
  destruct A as (He & Hg & body & Hj & Ht & Htr).
  enter_handler req Hg.
  ev; rewrite drain_step; ev; rewrite Ht; ev; rewrite Htr; ev;
    rewrite drain_step; ev.
  run_cases sched.
Qed.

(** A request whose [text] is falsy: the handler ends at once, and no
    call exists that could settle. *)
Lemma exec_rejected (req : NextRequest) (ai : Ai) (g : string)
    (text : Value) (P : parsed req ai g text) (F : truthy text = false)
    (sched : list (nat * Settlement)) :
  match exec req sched with
  | Some st =>
      sched = []
      /\ trace st = [EDone 0 (Fulfilled ValidationError)]
      /\ response st = Fulfilled ValidationError
      /\ quiescent st
  | None => sched <> []
  end.
Proof.
  destruct P as (He & Hg & body & Hj & Ht).
  enter_handler req Hg.
  ev; rewrite drain_step; ev; rewrite Ht; ev; rewrite F; ev.
  destruct sched as [|[n o] sched].
  - change (deliveries ?st []) with (Some st); cbv iota beta.
    repeat split.
  - rewrite deliveries_cons. ev. discriminate.
Qed.

Lemma run_of (req : NextRequest) (ai : Ai) (g : string) (text : Value)
    (sched : list (nat * Settlement)) (st : State) :
  accepted req ai g text -> exec req sched = Some st ->
  Run g text sched st /\ realizable sched = true.
Proof.
  intros A E. pose proof (exec_accepted req ai g text A sched) as H.
  now rewrite E in H.
Qed.

Lemma run_exists (req : NextRequest) (ai : Ai) (g : string) (text : Value)
    (sched : list (nat * Settlement)) :
  accepted req ai g text -> realizable sched = true ->
  exists st, exec req sched = Some st.
Proof.
  intros A R. pose proof (exec_accepted req ai g text A sched) as H.
  destruct (exec req sched) as [st|]; [now exists st | congruence].
Qed.

(** *** Consequences for the trace and the response *)

Lemma invocations_app (t1 t2 : list Event) :
  invocations (t1 ++ t2)%list = (invocations t1 ++ invocations t2)%list.
Proof.
  induction t1 as [|[n c|n o|p o] t1 IH]; simpl; congruence.
Qed.

Lemma settles_app (t1 t2 : list Event) :
  settles (t1 ++ t2)%list = (settles t1 ++ settles t2)%list.
Proof.
  induction t1 as [|[n c|n o|p o] t1 IH]; simpl; congruence.
Qed.

Lemma split_at_response_spec (t before after : list Event)
    (o : PromiseState) :
  split_at_response t = Some (before, o, after) ->
  t = (before ++ EDone 0 o :: after)%list.
Proof.
  revert before. induction t as [|e t IH]; intros before; simpl.
  - discriminate.
  - destruct e as [n c|n s|[|p] s];
      try (destruct (split_at_response t) as [[[b o'] a]|];
           [|discriminate];
           intros H; injection H as <- <- <-;
           simpl; f_equal; now apply IH).
    intros H. injection H as <- <- <-. reflexivity.
Qed.

(** The three calls come first in every trace, and nothing is called
    after them. *)
Lemma trace_shape (g : string) (text : Value)
    (sched : list (nat * Settlement)) (st : State) :
  Run g text sched st ->
  exists later,
    trace st =
    ([ EInvoke 0 (request_of g PROMPTS.sentiment text);
       EInvoke 1 (request_of g PROMPTS.products text);
       EInvoke 2 (request_of g PROMPTS.issues text) ] ++ later)%list
    /\ invocations later = []
    /\ settles later = sched.
Proof.
  intros R. exists (skipn 3 (trace st)).
  pose proof (firstn_skipn 3 (trace st)) as Hs.
  rewrite (run_calls _ _ _ _ R) in Hs.
  split; [now symmetry|]. split; [apply (run_no_more _ _ _ _ R)|].
  pose proof (run_settles _ _ _ _ R) as Hd.
  rewrite <- Hs, settles_app in Hd. exact Hd.
Qed.

Lemma first_failure_In (sched : list (nat * Settlement)) (n : nat)
    (o : Settlement) (e : Value) :
  In (n, o) sched -> result_of o = inr e ->
  exists e', first_failure sched = Some e'.
Proof.
  induction sched as [|[m o'] sched IH]; simpl; [contradiction|].
  intros [H | H] Ho.
  - injection H as -> ->. rewrite Ho. eauto.
  - destruct (result_of o'); eauto.
Qed.

Lemma outcome_failure (sched : list (nat * Settlement)) (e : Value) :
  first_failure sched = Some e -> outcome sched = Fulfilled (InferenceError e).
Proof. unfold outcome. now intros ->. Qed.

Lemma outcome_waiting (sched : list (nat * Settlement)) (n : nat) :
  first_failure sched = None -> n < 3 -> delivered n sched = None ->
  outcome sched = Pending.
Proof.
  unfold outcome. intros -> Hn Hd.
  destruct n as [|[|[|n]]]; [ | | | lia]; rewrite Hd.
  - reflexivity.
  - now destruct (delivered 0 sched) as [[]|].
  - destruct (delivered 0 sched) as [[]|]; try reflexivity;
      now destruct (delivered 1 sched) as [[]|].
Qed.

Lemma outcome_200 (sched : list (nat * Settlement)) (body : Value) :
  outcome sched = Fulfilled (VResponse 200 body) ->
  exists s p i, completions sched s p i /\ body = AnalysisResult s p i.
Proof.
  unfold outcome, completions.
  destruct (first_failure sched); [discriminate|].
  destruct (delivered 0 sched) as [[]|]; try discriminate.
  destruct (delivered 1 sched) as [[]|]; try discriminate.
  destruct (delivered 2 sched) as [[]|]; try discriminate.
  intros H. injection H as <-. eauto 10.
Qed.

(** With each call delivered at most once, three delivered completions
    leave no room for a failure. *)
Lemma outcome_completions (sched : list (nat * Settlement))
    (s p i : string) :
  realizable sched = true -> completions sched s p i ->
  outcome sched = Fulfilled (NextResponse_json (AnalysisResult s p i) 200).
Proof.
  unfold completions, outcome, realizable. intros R (H0 & H1 & H2).
  destruct sched as [|[n1 o1] [|[n2 o2] [|[n3 o3] [|[n4 o4] rest]]]];
    try destruct n1 as [|[|[|n1]]]; try destruct n2 as [|[|[|n2]]];
    try destruct n3 as [|[|[|n3]]]; try destruct n4 as [|[|[|n4]]];
    simpl in *; try discriminate;
    repeat match goal with
           | H : context [result_of ?o] |- _ =>
               destruct (result_of o) as [?|?]
           end;
    simpl in *; try discriminate;
    repeat match goal with
           | H : Some _ = Some _ |- _ => injection H as ->
           end;
    reflexivity.
Qed.

Lemma response_of_completions (req : NextRequest) (ai : Ai) (g : string)
    (text : Value) (sched : list (nat * Settlement)) (st : State)
    (s p i : string) :
  accepted req ai g text -> exec req sched = Some st ->
  completions sched s p i ->
  response st = Fulfilled (VResponse 200 (AnalysisResult s p i)).
Proof.
  intros A E C. destruct (run_of _ _ _ _ _ _ A E) as [R Hr].
  rewrite (run_response _ _ _ _ R). now apply outcome_completions.
Qed.

Lemma sample_accepted (text : Value) :
  truthy text = true -> accepted (request_with text) AiBinding "gateway" text.
Proof.
  intros H. split; [reflexivity|]. split; [discriminate|].
  exists (VObject [("text", text)]). now repeat split.
Qed.

Lemma sample_parsed (text : Value) :
  parsed (request_with text) AiBinding "gateway" text.
Proof.
  split; [reflexivity|]. split; [discriminate|].
  exists (VObject [("text", text)]). now repeat split.
Qed.

(* ================================================================= *)
(** ** Validation *)

Lemma falsy_values (v : Value) :
  truthy v = false <->
  v = VUndefined \/ v = VNull \/ v = VBool false
  \/ (exists sign, v = VNumber (S754_zero sign))
  \/ v = VNumber S754_nan \/ v = VString EmptyString.
Proof.
  split.
  - destruct v as [| |[]|[]|[]| | | | | |]; simpl; try discriminate; eauto 10.
  - intros [->|[->|[->|[[sign ->]|[->| ->]]]]]; reflexivity.
Qed.

(** A body without a [text] property of its own has [undefined] there. *)
Lemma missing_text (props : list (string * Value)) :
  own props "text" = None ->
  Destructure (VObject props) "text" = inl VUndefined.
Proof. intros H. simpl. unfold property. now rewrite H. Qed.

(** Without the binding or the gateway identifier the handler answers
    HTTP 500 before it reads the body. *)
Lemma unconfigured_environment (body : Settlement) :
  observe response {| env := None; json := body |} []
  = Some
      (Fulfilled
         (InferenceError
            (VError "Required environment variables are not set"))).
Proof. reflexivity. Qed.

(** A body that is [null] cannot be destructured: HTTP 500. *)
Lemma null_body :
  observe response {| env := sample_env; json := Resolve VNull |} []
  = Some
      (Fulfilled
         (InferenceError
            (VError
               "Cannot destructure property 'text' of '(intermediate value)' as it is null."))).
Proof. reflexivity. Qed.

(** C1, as stated, fails on the code.  A [text] of white space only is
    empty after trimming, and a [text] that is the number 42 is not a
    string; the handler answers neither with the validation error, and
    calls the inference client three times for each. *)
Lemma blank_or_numeric_text_reaches_inference :
  trim "   " = EmptyString
  /\ observe response (request_with (VString "   ")) [] = Some Pending
  /\ observe (fun st => List.length (invocations (trace st)))
       (request_with (VString "   ")) [] = Some 3
  /\ observe response (request_with (VNumber (S754_finite false 42 0))) []
     = Some Pending
  /\ observe (fun st => List.length (invocations (trace st)))
       (request_with (VNumber (S754_finite false 42 0))) [] = Some 3.
Proof. repeat split; vm_compute; reflexivity. Qed.

(** C1, amended.  When the environment is configured and the body parses
    to a value other than [null], and the body's [text] is falsy (missing,
    [null], [false], a zero or NaN, or the empty string), the handler
    returns HTTP 400 with the body [{ error: "Text is required" }] and
    never calls the inference client. *)
Theorem falsy_text_is_rejected (req : NextRequest) (ai : Ai) (g : string)
    (text : Value) :
  parsed req ai g text -> truthy text = false ->
  (exists st, exec req [] = Some st)
  /\ forall sched st,
       exec req sched = Some st ->
       response st
       = Fulfilled
           (VResponse 400 (VObject [ ("error", VString "Text is required") ]))
       /\ invocations (trace st) = [].
Proof.
  intros P F. split.
  - pose proof (exec_rejected req ai g text P F []) as H.
    destruct (exec req []) as [st|]; [now exists st | now contradiction H].
  - intros sched st E.
    pose proof (exec_rejected req ai g text P F sched) as H.
    rewrite E in H. destruct H as (_ & Ht & Hr & _).
    split; [exact Hr | now rewrite Ht].
Qed.

Lemma falsy_text_is_rejected_witness :
  parsed (request_with (VString EmptyString)) AiBinding "gateway" (VString EmptyString)
  /\ truthy (VString EmptyString) = false
  /\ exists st,
       exec (request_with (VString EmptyString)) [] = Some st
       /\ response st
          = Fulfilled
              (VResponse 400
                 (VObject [ ("error", VString "Text is required") ]))
       /\ invocations (trace st) = [].
Proof.
  split; [apply sample_parsed|]. split; [reflexivity|].
  destruct (falsy_text_is_rejected (request_with (VString EmptyString)) AiBinding
              "gateway" (VString EmptyString) (sample_parsed _) eq_refl)
    as [[st E] H].
  exists st. split; [exact E | exact (H [] st E)].
Defined.

(* ================================================================= *)
(** ** The calls *)

(** C7, as stated, fails on the code.  For the text " hello " the user
    message of each call is the text as received, which is not the
    trimmed text. *)
Lemma user_message_is_not_trimmed :
  observe (fun st => map user_message (invocations (trace st)))
    (request_with (VString " hello ")) []
  = Some [ Some (VString " hello "); Some (VString " hello ");
           Some (VString " hello ") ]
  /\ VString " hello " <> VString (trim " hello ").
Proof. split; [vm_compute; reflexivity | vm_compute; discriminate]. Qed.

(** C7, amended.  For every request that passes validation, three
    inference calls are made, for the sentiment, products and issues
    prompts in that order, and each carries as its user message exactly
    the request's [text] as received, without trimming, after the system
    message with its prompt. *)
Theorem calls_carry_the_text (req : NextRequest) (ai : Ai) (g : string)
    (text : Value) (sched : list (nat * Settlement)) (st : State) :
  accepted req ai g text -> exec req sched = Some st ->
  map messages (invocations (trace st))
  = [ [ ("system", VString PROMPTS.sentiment); ("user", text) ];
      [ ("system", VString PROMPTS.products); ("user", text) ];
      [ ("system", VString PROMPTS.issues); ("user", text) ] ]
  /\ map user_message (invocations (trace st))
     = [ Some text; Some text; Some text ].
Proof.
  intros A E. destruct (run_of _ _ _ _ _ _ A E) as [R _].
  destruct (trace_shape _ _ _ _ R) as (later & -> & Hl & _).
  rewrite invocations_app, Hl. split; reflexivity.
Qed.

Lemma calls_carry_the_text_witness :
  exists st,
    exec (request_with (VString " hello ")) [ (1, answer "none") ] = Some st
    /\ map user_message (invocations (trace st))
       = [ Some (VString " hello "); Some (VString " hello ");
           Some (VString " hello ") ].
Proof.
  destruct (run_exists (request_with (VString " hello ")) AiBinding
              "gateway" (VString " hello ") [ (1, answer "none") ]
              (sample_accepted (VString " hello ") eq_refl) eq_refl)
    as [st E].
  exists st. split; [exact E|].
  exact (proj2 (calls_carry_the_text _ AiBinding "gateway" _ _ _
                  (sample_accepted (VString " hello ") eq_refl) E)).
Defined.

(* ================================================================= *)
(** ** Failure of a call *)

(** C5.  For every accepted request, when one of the three calls fails
    (its promise rejects, or its result has no string [response]), the
    handler answers HTTP 500 with the body
    [{ error: "Failed to analyze text", details: <a string> }], whatever
    the other calls do and in whatever order the calls settle; in
    particular when the product call fails and the other two succeed.
    The response being that one, no result is assembled from the calls
    that succeeded. *)
Theorem failed_call_fails_request (req : NextRequest) (ai : Ai)
    (g : string) (text : Value) (sched : list (nat * Settlement))
    (st : State) (n : nat) (o : Settlement) (e : Value) :
  accepted req ai g text -> exec req sched = Some st ->
  In (n, o) sched -> result_of o = inr e ->
  exists details,
    response st
    = Fulfilled
        (VResponse 500
           (VObject [ ("error", VString "Failed to analyze text");
                      ("details", VString details) ])).
Proof.
  intros A E Hin Ho. destruct (run_of _ _ _ _ _ _ A E) as [R _].
  destruct (first_failure_In _ _ _ _ Hin Ho) as [e' He'].
  rewrite (run_response _ _ _ _ R), (outcome_failure _ _ He').
  unfold InferenceError, NextResponse_json. eauto.
Qed.

Lemma failed_call_fails_request_witness :
  exists st,
    exec (request_with (VString "R2 is down"))
      [ (0, answer "negative"); (2, answer "Service Disruption");
        (1, Reject (VError "upstream timeout")) ]
    = Some st
    /\ exists details,
         response st
         = Fulfilled
             (VResponse 500
                (VObject [ ("error", VString "Failed to analyze text");
                           ("details", VString details) ])).
Proof.
  destruct (run_exists (request_with (VString "R2 is down")) AiBinding
              "gateway" (VString "R2 is down")
              [ (0, answer "negative"); (2, answer "Service Disruption");
                (1, Reject (VError "upstream timeout")) ]
              (sample_accepted (VString "R2 is down") eq_refl) eq_refl)
    as [st E].
  exists st. split; [exact E|].
  apply (failed_call_fails_request _ AiBinding "gateway"
           (VString "R2 is down") _ st 1 (Reject (VError "upstream timeout"))
           (VError "upstream timeout")
           (sample_accepted (VString "R2 is down") eq_refl) E).
  - simpl. right. right. left. reflexivity.
  - reflexivity.
Defined.

(* ================================================================= *)
(** ** The result *)

(** C8.  The response is a function of the three completions: two runs of
    accepted requests with the same [text], in which the sentiment,
    products and issues calls deliver the same completions, end with
    equal responses, whatever the order in which the calls settle; the
    response is HTTP 200 with the result assembled from the
    completions. *)
Theorem same_completions_same_result (req1 req2 : NextRequest)
    (ai1 ai2 : Ai) (g1 g2 : string) (text : Value)
    (sched1 sched2 : list (nat * Settlement)) (st1 st2 : State)
    (s p i : string) :
  accepted req1 ai1 g1 text -> accepted req2 ai2 g2 text ->
  exec req1 sched1 = Some st1 -> exec req2 sched2 = Some st2 ->
  completions sched1 s p i -> completions sched2 s p i ->
  response st1 = response st2
  /\ response st1 = Fulfilled (VResponse 200 (AnalysisResult s p i)).
Proof.
  intros A1 A2 E1 E2 C1 C2.
  rewrite (response_of_completions _ _ _ _ _ _ _ _ _ A1 E1 C1).
  rewrite (response_of_completions _ _ _ _ _ _ _ _ _ A2 E2 C2).
  split; reflexivity.
Qed.

Lemma same_completions_same_result_witness :
  exists st1 st2,
    exec (request_with (VString "WAF blocks my Workers"))
      [ (0, answer "negative"); (1, answer "WAF, Workers");
        (2, answer "Bug Report") ] = Some st1
    /\ exec (request_with (VString "WAF blocks my Workers"))
         [ (2, answer "Bug Report "); (0, answer " negative");
           (1, answer "WAF, Workers") ] = Some st2
    /\ response st1 = response st2
    /\ response st1
       = Fulfilled
           (VResponse 200 (AnalysisResult "negative" "WAF, Workers"
                             "Bug Report")).
Proof.
  pose proof (sample_accepted (VString "WAF blocks my Workers") eq_refl)
    as A.
  destruct (run_exists _ _ _ _
              [ (0, answer "negative"); (1, answer "WAF, Workers");
                (2, answer "Bug Report") ] A eq_refl) as [st1 E1].
  destruct (run_exists _ _ _ _
              [ (2, answer "Bug Report "); (0, answer " negative");
                (1, answer "WAF, Workers") ] A eq_refl) as [st2 E2].
  exists st1, st2. split; [exact E1|]. split; [exact E2|].
  apply (same_completions_same_result _ _ _ _ _ _ _ _ _ _ _ _ _ _
           A A E1 E2); repeat split.
Defined.

(** C4, as stated, fails on the code.  The completion [__proto__] is none
    of the three keys when lower-cased, yet the lookup in the object
    literal does not yield [undefined]: it yields the prototype that the
    literal inherits from, and this value is what the HTTP 200 result
    carries in its sentiment field. *)
Lemma sentiment_lookup_inherits :
  ~ In (toLowerCase "__proto__") [ "positive"; "negative"; "neutral" ]
  /\ property SENTIMENT_MAP (toLowerCase "__proto__") <> VUndefined
  /\ observe response (request_with (VString "KV is fine"))
       [ (0, answer "__proto__"); (1, answer "KV"); (2, answer "General") ]
     = Some
         (Fulfilled
            (VResponse 200
               (VObject
                  [ ("sentiment", VNative "Object.prototype");
                    ("products", VArray [ VString "KV" ]);
                    ("issues", VArray [ VString "General" ]) ]))).
Proof.
  split.
  - simpl. intros [H|[H|[H|[]]]]; discriminate H.
  - split; [vm_compute; discriminate | vm_compute; reflexivity].
Qed.

(** C4, amended.  The sentiment normalizer lower-cases the completion and
    reads the property of that name from the sentiment table, an object
    literal, without any guard; the value read is put as it is into the
    sentiment field of the HTTP 200 result.  It is the table's entry, with
    its label and styling hint, for the three keys; the inherited member
    of [Object.prototype] for the keys [constructor] and [__proto__]; and
    [undefined] for every other key, with no error and no default. *)
Theorem sentiment_is_unguarded (req : NextRequest) (ai : Ai) (g : string)
    (text : Value) (sched : list (nat * Settlement)) (st : State)
    (s p i : string) :
  accepted req ai g text -> exec req sched = Some st ->
  completions sched s p i ->
  exists body,
    response st = Fulfilled (VResponse 200 body)
    /\ sentiment_of body = property SENTIMENT_MAP (toLowerCase s)
    /\ (In (toLowerCase s) [ "positive"; "negative"; "neutral" ] ->
        exists label color,
          sentiment_of body
          = VObject [ ("label", VString label); ("color", VString color) ]
          /\ toLowerCase label = toLowerCase s)
    /\ (toLowerCase s = "constructor" -> sentiment_of body = VNative "Object")
    /\ (toLowerCase s = "__proto__" ->
        sentiment_of body = VNative "Object.prototype")
    /\ (~ In (toLowerCase s)
            [ "positive"; "negative"; "neutral"; "constructor"; "__proto__" ]
        -> sentiment_of body = VUndefined).
Proof.
  intros A E C. exists (AnalysisResult s p i).
  split; [now apply (response_of_completions _ _ _ _ _ _ _ _ _ A E C)|].
  change (sentiment_of (AnalysisResult s p i))
    with (property SENTIMENT_MAP (toLowerCase s)).
  split; [reflexivity|]. rewrite sentiment_lookup. cbv zeta.
  repeat split.
  - simpl. intros [<-|[<-|[<-|[]]]]; simpl; eauto.
  - intros ->. reflexivity.
  - intros ->. reflexivity.
  - intros H.
    repeat match goal with
           | |- context [String.eqb ?k (toLowerCase s)] =>
               let Hk := fresh "Hk" in
               destruct (String.eqb_spec k (toLowerCase s)) as [Hk|Hk];
               [ exfalso; apply H; rewrite <- Hk; simpl; tauto | ]
           end.
    reflexivity.
Qed.

Lemma sentiment_is_unguarded_witness :
  exists st body,
    exec (request_with (VString "KV is fine"))
      [ (1, answer "KV"); (0, answer "Mixed"); (2, answer "General") ]
    = Some st
    /\ response st = Fulfilled (VResponse 200 body)
    /\ sentiment_of body = VUndefined.
Proof.
  pose proof (sample_accepted (VString "KV is fine") eq_refl) as A.
  destruct (run_exists _ _ _ _
              [ (1, answer "KV"); (0, answer "Mixed");
                (2, answer "General") ] A eq_refl) as [st E].
  destruct (sentiment_is_unguarded _ _ _ _ _ st "Mixed" "KV" "General" A E)
    as (body & Hr & _ & _ & _ & _ & Hu); [repeat split|].
  exists st, body. split; [exact E|]. split; [exact Hr|].
  apply Hu. simpl. intros [H|[H|[H|[H|[H|[]]]]]]; discriminate H.
Defined.

(** C6, as stated, fails on the code.  The completion [R2D2] of the
    product call is kept, since it contains [r2]; it is no entry of the
    catalog, in any case of the letters. *)
Lemma products_outside_catalog :
  observe (fun st =>
             match response st with
             | Fulfilled (VResponse 200 body) => Some (products_of body)
             | _ => None
             end)
    (request_with (VString "I like R2D2"))
    [ (0, answer "positive"); (1, answer "R2D2"); (2, answer "General") ]
  = Some (Some (VArray [ VString "R2D2" ]))
  /\ forall name,
       In name CLOUDFLARE_PRODUCTS ->
       toLowerCase "R2D2" <> toLowerCase name.
Proof.
  split; [vm_compute; reflexivity|].
  intros name H. simpl in H.
  repeat (destruct H as [<- | H]; [vm_compute; discriminate|]).
  contradiction.
Qed.

(** C6, amended.  For every successful request, the [products] of the
    response is a sequence of strings each of which contains, without
    regard to case, the name of an entry of the product catalog as a
    substring; a string of the sequence need not be an entry itself. *)
Theorem products_mention_catalog (req : NextRequest) (ai : Ai) (g : string)
    (text : Value) (sched : list (nat * Settlement)) (st : State)
    (body : Value) :
  accepted req ai g text -> exec req sched = Some st ->
  response st = Fulfilled (VResponse 200 body) ->
  exists names,
    products_of body = VArray (map VString names)
    /\ forall product,
         In product names ->
         exists name pre post,
           In name CLOUDFLARE_PRODUCTS
           /\ toLowerCase product = pre ++ toLowerCase name ++ post.
Proof.
  intros A E Hr. destruct (run_of _ _ _ _ _ _ A E) as [R _].
  rewrite (run_response _ _ _ _ R) in Hr.
  destruct (outcome_200 _ _ Hr) as (s & p & i & _ & ->).
  exists (processProducts p). split; [reflexivity|].
  intros product Hin. apply mentions_product_spec.
  rewrite processProducts_unfold in Hin.
  destruct (strictEq (toLowerCase p) "none"); [contradiction|].
  now apply filter_In in Hin.
Qed.

Lemma products_mention_catalog_witness :
  exists st body names,
    exec (request_with (VString "I like R2D2"))
      [ (0, answer "positive"); (1, answer "R2D2"); (2, answer "General") ]
    = Some st
    /\ response st = Fulfilled (VResponse 200 body)
    /\ products_of body = VArray (map VString names)
    /\ forall product,
         In product names ->
         exists name pre post,
           In name CLOUDFLARE_PRODUCTS
           /\ toLowerCase product = pre ++ toLowerCase name ++ post.
Proof.
  pose proof (sample_accepted (VString "I like R2D2") eq_refl) as A.
  destruct (run_exists _ _ _ _
              [ (0, answer "positive"); (1, answer "R2D2");
                (2, answer "General") ] A eq_refl) as [st E].
  pose proof (response_of_completions _ _ _ _ _ st "positive" "R2D2"
                "General" A E) as Hr.
  assert (C : completions
                [ (0, answer "positive"); (1, answer "R2D2");
                  (2, answer "General") ] "positive" "R2D2" "General")
    by (repeat split).
  specialize (Hr C).
  destruct (products_mention_catalog _ _ _ _ _ st _ A E Hr)
    as (names & Hn & Hall).
  exists st, (AnalysisResult "positive" "R2D2" "General"), names.
  split; [exact E|]. split; [exact Hr|]. split; [exact Hn | exact Hall].
Defined.

(* ================================================================= *)
(** ** Fan-out and join *)

(** C9.  Within one accepted request the three calls are issued, for the
    sentiment, products and issues prompts in that order, before any of
    them completes: they have all been issued when none has settled yet,
    in every run each settlement comes after the three invocations, and
    nothing is invoked afterwards, so a call that never settles holds
    back none of the others.  The handler then waits: as long as no call
    has failed and one of the three has not delivered, it has no
    response; and when it answers HTTP 200, each of the three calls has
    been fulfilled before that answer.  The wait ends with the third
    delivery: in whatever order the three calls deliver their
    completions, the run goes on, and once they have the handler answers
    HTTP 200 with the result assembled from the three completions. *)
Theorem calls_fan_out_and_join (req : NextRequest) (ai : Ai) (g : string)
    (text : Value) :
  accepted req ai g text ->
  let issued :=
    [ EInvoke 0 (request_of g PROMPTS.sentiment text);
      EInvoke 1 (request_of g PROMPTS.products text);
      EInvoke 2 (request_of g PROMPTS.issues text) ] in
  (exists st,
      exec req [] = Some st
      /\ (exists later, trace st = (issued ++ later)%list
                        /\ invocations later = [] /\ settles later = [])
      /\ response st = Pending)
  /\ (forall sched st,
         exec req sched = Some st ->
         exists later,
           trace st = (issued ++ later)%list
           /\ invocations later = []
           /\ settles later = sched)
  /\ (forall sched st n,
         exec req sched = Some st ->
         first_failure sched = None ->
         n < 3 -> delivered n sched = None ->
         response st = Pending)
  /\ (forall sched st body,
         exec req sched = Some st ->
         response st = Fulfilled (VResponse 200 body) ->
         exists before after,
           trace st
           = (before ++ EDone 0 (Fulfilled (VResponse 200 body)) :: after)%list
           /\ forall n, n < 3 -> exists v, In (ESettle n (Resolve v)) before)
  /\ (forall sched,
         realizable sched = true -> exists st, exec req sched = Some st)
  /\ (forall sched st s p i,
         exec req sched = Some st ->
         completions sched s p i ->
         response st = Fulfilled (VResponse 200 (AnalysisResult s p i))).
Proof.
  intros A issued. split; [|split; [|split; [|split; [|split]]]].
  - destruct (run_exists req ai g text [] A eq_refl) as [st E].
    destruct (run_of _ _ _ _ _ _ A E) as [R _].
    exists st. split; [exact E|]. split; [exact (trace_shape _ _ _ _ R)|].
    exact (run_response _ _ _ _ R).
  - intros sched st E. destruct (run_of _ _ _ _ _ _ A E) as [R _].
    exact (trace_shape _ _ _ _ R).
  - intros sched st n E Hf Hn Hd. destruct (run_of _ _ _ _ _ _ A E) as [R _].
    rewrite (run_response _ _ _ _ R). exact (outcome_waiting _ n Hf Hn Hd).
  - intros sched st body E Hr. destruct (run_of _ _ _ _ _ _ A E) as [R _].
    destruct (run_barrier _ _ _ _ R body Hr) as (before & after & Hs & Hall).
    exists before, after. split; [|exact Hall].
    exact (split_at_response_spec _ _ _ _ Hs).
  - intros sched R. exact (run_exists req ai g text sched A R).
  - intros sched st s p i E C.
    exact (response_of_completions _ _ _ _ _ _ _ _ _ A E C).
Qed.

Lemma calls_fan_out_and_join_witness :
  exists st later,
    exec (request_with (VString "Pages build is slow"))
      [ (2, answer "Performance Issue"); (1, answer "Pages") ] = Some st
    /\ trace st
       = ([ EInvoke 0 (request_of "gateway" PROMPTS.sentiment
                         (VString "Pages build is slow"));
            EInvoke 1 (request_of "gateway" PROMPTS.products
                         (VString "Pages build is slow"));
            EInvoke 2 (request_of "gateway" PROMPTS.issues
                         (VString "Pages build is slow")) ] ++ later)%list
    /\ settles later
       = [ (2, answer "Performance Issue"); (1, answer "Pages") ]
    /\ response st = Pending
    /\ exists st',
         exec (request_with (VString "Pages build is slow"))
           [ (2, answer "Performance Issue"); (1, answer "Pages");
             (0, answer "Negative") ] = Some st'
         /\ response st'
            = Fulfilled
                (VResponse 200
                   (AnalysisResult "Negative" "Pages" "Performance Issue")).
Proof.
  pose proof (sample_accepted (VString "Pages build is slow") eq_refl) as A.
  destruct (run_exists _ _ _ _
              [ (2, answer "Performance Issue"); (1, answer "Pages") ]
              A eq_refl) as [st E].
  destruct (calls_fan_out_and_join _ _ _ _ A)
    as (_ & Hshape & Hwait & _ & Hgo & Hjoin).
  destruct (Hshape _ st E) as (later & Ht & _ & Hs).
  exists st, later. split; [exact E|]. split; [exact Ht|].
  split; [exact Hs|].
  split; [apply (Hwait _ st 0 E); [reflexivity | lia | reflexivity]|].
  destruct (Hgo [ (2, answer "Performance Issue"); (1, answer "Pages");
                  (0, answer "Negative") ] eq_refl) as [st' E'].
  exists st'. split; [exact E'|].
  apply (Hjoin _ st' "Negative" "Pages" "Performance Issue" E').
  repeat split.
Defined.

(* ================================================================= *)
(** ** More on the handler *)

(** *** The guards before the calls *)

Lemma exec_unconfigured (req : NextRequest) (U : configured req = false)
    (sched : list (nat * Settlement)) :
  match exec req sched with
  | Some st =>
      sched = []
      /\ invocations (trace st) = []
      /\ response st
         = Fulfilled
             (InferenceError
                (VError "Required environment variables are not set"))
  | None => sched <> []
  end.
Proof.
  destruct req as [[[[a|] [g|]]|] j]; unfold configured in U; simpl in U;
    try (apply negb_false_iff in U);
    unfold exec, start, POST; cbn [env json]; try rewrite U; ev;
    (destruct sched as [|[n o] sched];
     [ change (deliveries ?st []) with (Some st); cbv iota beta;
       repeat split
     | rewrite deliveries_cons; ev; discriminate ]).
Qed.

Lemma exec_unreadable (req : NextRequest) (e : Value)
    (C : configured req = true) (B : body_error (json req) = Some e)
    (sched : list (nat * Settlement)) :
  match exec req sched with
  | Some st =>
      sched = []
      /\ invocations (trace st) = []
      /\ response st = Fulfilled (InferenceError e)
  | None => sched <> []
  end.
Proof.
  destruct req as [[[[a|] [g|]]|] j]; unfold configured in C; simpl in C;
    try discriminate C.
  apply negb_true_iff in C. simpl in B.
  unfold exec, start, POST; cbn [env json]. rewrite C.
  destruct j as [body|r]; simpl in B.
  - destruct (Destructure body "text") as [t|e'] eqn:Ht; [discriminate|].
    injection B as ->.
    ev; rewrite drain_step; ev; rewrite Ht; ev.
    destruct sched as [|[n o] sched].
    + change (deliveries ?st []) with (Some st); cbv iota beta.
      repeat split.
    + rewrite deliveries_cons; ev; discriminate.
  - injection B as ->.
    ev; rewrite drain_step; ev.
    destruct sched as [|[n o] sched].
    + change (deliveries ?st []) with (Some st); cbv iota beta.
      repeat split.
    + rewrite deliveries_cons; ev; discriminate.
Qed.

(** X1.  Without the inference binding or without a gateway identifier
    that is not empty, the handler answers HTTP 500 with the details
    "Required environment variables are not set", whatever the body of
    the request is, and never calls the inference client. *)
Theorem unconfigured_request_fails (req : NextRequest) :
  configured req = false ->
  (exists st, exec req [] = Some st)
  /\ forall sched st,
       exec req sched = Some st ->
       response st
       = Fulfilled
           (VResponse 500
              (VObject
                 [ ("error", VString "Failed to analyze text");
                   ("details",
                    VString "Required environment variables are not set") ]))
       /\ invocations (trace st) = [].
Proof.
  intros U. split.
  - pose proof (exec_unconfigured req U []) as H.
    destruct (exec req []) as [st|]; [now exists st | now contradiction H].
  - intros sched st E. pose proof (exec_unconfigured req U sched) as H.
    rewrite E in H. destruct H as (_ & Hi & Hr). split; assumption.
Qed.

Lemma unconfigured_request_fails_witness :
  configured
    {| env := Some {| AI := Some AiBinding;
                      CLOUDFLARE_GATEWAY_ID := Some EmptyString |};
       json := answer "ignored" |} = false
  /\ exists st,
       exec {| env := Some {| AI := Some AiBinding;
                              CLOUDFLARE_GATEWAY_ID := Some EmptyString |};
               json := answer "ignored" |} [] = Some st
       /\ invocations (trace st) = [].
Proof.
  split; [reflexivity|].
  destruct (unconfigured_request_fails
              {| env := Some {| AI := Some AiBinding;
                                CLOUDFLARE_GATEWAY_ID := Some EmptyString |};
                 json := answer "ignored" |} eq_refl) as [[st E] H].
  exists st. split; [exact E | exact (proj2 (H [] st E))].
Defined.

(** X2.  With the environment configured, a body that cannot be parsed
    ([req.json()] rejects) or that is [null] fails the request with HTTP
    500 and no inference call.  The details are the message of the thrown
    value when it is an [Error], and "Unknown error" when it is anything
    else; for a [null] body the thrown value is the [TypeError] of
    destructuring [null]. *)
Theorem unreadable_body_fails (req : NextRequest) (e : Value) :
  configured req = true -> body_error (json req) = Some e ->
  (exists st, exec req [] = Some st)
  /\ (forall sched st,
       exec req sched = Some st ->
       response st
       = Fulfilled
           (VResponse 500
              (VObject
                 [ ("error", VString "Failed to analyze text");
                   ("details",
                    VString match e with
                            | VError message => message
                            | _ => "Unknown error"
                            end) ]))
       /\ invocations (trace st) = [])
  /\ body_error (Resolve VNull)
     = Some
         (VError
            "Cannot destructure property 'text' of '(intermediate value)' as it is null.").
Proof.
  intros C B. split; [|split; [|reflexivity]].
  - pose proof (exec_unreadable req e C B []) as H.
    destruct (exec req []) as [st|]; [now exists st | now contradiction H].
  - intros sched st E. pose proof (exec_unreadable req e C B sched) as H.
    rewrite E in H. destruct H as (_ & Hi & Hr). split; assumption.
Qed.

Lemma unreadable_body_fails_witness :
  configured {| env := sample_env; json := Reject (VString "aborted") |}
  = true
  /\ body_error (Reject (VString "aborted")) = Some (VString "aborted")
  /\ exists st,
       exec {| env := sample_env; json := Reject (VString "aborted") |} []
       = Some st
       /\ response st
          = Fulfilled
              (VResponse 500
                 (VObject
                    [ ("error", VString "Failed to analyze text");
                      ("details", VString "Unknown error") ])).
Proof.
  split; [reflexivity|]. split; [reflexivity|].
  destruct (unreadable_body_fails
              {| env := sample_env; json := Reject (VString "aborted") |}
              (VString "aborted") eq_refl eq_refl) as [[st E] [H _]].
  exists st. split; [exact E | exact (proj1 (H [] st E))].
Defined.

(** *** What the response can be *)

Lemma outcome_status (sched : list (nat * Settlement)) (status : Z)
    (body : Value) :
  outcome sched = Fulfilled (VResponse status body) ->
  status = 200%Z \/ status = 500%Z.
Proof.
  unfold outcome.
  destruct (first_failure sched).
  - unfold InferenceError, NextResponse_json. intros H. injection H as <- _.
    now right.
  - destruct (delivered 0 sched) as [[]|]; try discriminate.
    destruct (delivered 1 sched) as [[]|]; try discriminate.
    destruct (delivered 2 sched) as [[]|]; try discriminate.
    unfold NextResponse_json. intros H. injection H as <- _. now left.
Qed.

Lemma first_failure_app (good rest : list (nat * Settlement)) (n : nat)
    (o : Settlement) (e : Value) :
  Forall (fun d => exists v, result_of (snd d) = inl v) good ->
  result_of o = inr e ->
  first_failure (good ++ (n, o) :: rest)%list = Some e.
Proof.
  intros Hg Ho. induction Hg as [|[m o'] good [v Hv] _ IH]; simpl.
  - now rewrite Ho.
  - simpl in Hv. now rewrite Hv.
Qed.

Lemma first_failure_more (sched more : list (nat * Settlement)) (e : Value) :
  first_failure sched = Some e ->
  first_failure (sched ++ more)%list = Some e.
Proof.
  induction sched as [|[n o] sched IH]; simpl; [discriminate|].
  destruct (result_of o); auto.
Qed.

Lemma delivered_more (sched more : list (nat * Settlement)) (n : nat)
    (v : Value) :
  delivered n sched = Some v -> delivered n (sched ++ more)%list = Some v.
Proof.
  induction sched as [|[m o] sched IH]; simpl; [discriminate|].
  destruct (m =? n)%nat; auto.
Qed.

(** X3.  A [text] that is truthy is never answered with the validation
    error, whatever its type and content: the three inference calls are
    made, and the response, once there is one, is HTTP 200 or HTTP 500,
    never 400. *)
Theorem truthy_text_is_not_rejected (req : NextRequest) (ai : Ai)
    (g : string) (text : Value) (sched : list (nat * Settlement))
    (st : State) :
  parsed req ai g text -> truthy text = true ->
  exec req sched = Some st ->
  List.length (invocations (trace st)) = 3
  /\ forall status body,
       response st = Fulfilled (VResponse status body) ->
       status = 200%Z \/ status = 500%Z.
Proof.
  intros (He & Hg & body & Hj & Ht) Htr E.
  assert (A : accepted req ai g text).
  { split; [assumption|]. split; [assumption|]. now exists body. }
  destruct (run_of _ _ _ _ _ _ A E) as [R _]. split.
  - destruct (trace_shape _ _ _ _ R) as (later & -> & Hl & _).
    rewrite invocations_app, Hl. reflexivity.
  - intros status b Hr. rewrite (run_response _ _ _ _ R) in Hr.
    exact (outcome_status _ _ _ Hr).
Qed.

Lemma truthy_text_is_not_rejected_witness :
  exists st,
    exec (request_with (VArray [])) [ (1, answer "none") ] = Some st
    /\ List.length (invocations (trace st)) = 3.
Proof.
  destruct (run_exists (request_with (VArray [])) AiBinding "gateway"
              (VArray []) [ (1, answer "none") ]
              (sample_accepted (VArray []) eq_refl) eq_refl) as [st E].
  exists st. split; [exact E|].
  exact (proj1 (truthy_text_is_not_rejected _ AiBinding "gateway"
                  (VArray []) _ st (sample_parsed (VArray [])) eq_refl E)).
Defined.

(** X4.  Every inference call is made with the same fixed settings: the
    model [@cf/meta/llama-3.1-70b-instruct], temperature 0, at most 150
    tokens, and the gateway of the environment with its cache on
    ([skipCache] false) and a cache lifetime of 3600000. *)
Theorem calls_use_fixed_settings (req : NextRequest) (ai : Ai) (g : string)
    (text : Value) (sched : list (nat * Settlement)) (st : State) :
  accepted req ai g text -> exec req sched = Some st ->
  Forall (fun c =>
            model c = "@cf/meta/llama-3.1-70b-instruct"
            /\ temperature c = S754_zero false
            /\ max_tokens c = 150%Z
            /\ gateway c
               = {| id := g; skipCache := false; cacheTtl := 3600000 |})
         (invocations (trace st)).
Proof.
  intros A E. destruct (run_of _ _ _ _ _ _ A E) as [R _].
  destruct (trace_shape _ _ _ _ R) as (later & -> & Hl & _).
  rewrite invocations_app, Hl. repeat constructor.
Qed.

Lemma calls_use_fixed_settings_witness :
  exists st,
    exec (request_with (VString "DNS is fast")) [] = Some st
    /\ Forall (fun c =>
                 model c = "@cf/meta/llama-3.1-70b-instruct"
                 /\ temperature c = S754_zero false
                 /\ max_tokens c = 150%Z
                 /\ gateway c
                    = {| id := "gateway"; skipCache := false;
                         cacheTtl := 3600000 |})
              (invocations (trace st)).
Proof.
  pose proof (sample_accepted (VString "DNS is fast") eq_refl) as A.
  destruct (run_exists _ _ _ _ [] A eq_refl) as [st E].
  exists st. split; [exact E|].
  exact (calls_use_fixed_settings _ _ _ _ _ st A E).
Defined.

(** X5.  When calls fail, the response reports the failure that settles
    first, in the order of settlement and not in the order of the calls:
    after deliveries that all succeed, the first failing delivery decides
    the details, the message of the thrown value when it is an [Error]
    and "Unknown error" otherwise, whatever settles after it. *)
Theorem first_failure_decides_details (req : NextRequest) (ai : Ai)
    (g : string) (text : Value) (good rest : list (nat * Settlement))
    (n : nat) (o : Settlement) (e : Value) (st : State) :
  accepted req ai g text ->
  exec req (good ++ (n, o) :: rest)%list = Some st ->
  Forall (fun d => exists v, result_of (snd d) = inl v) good ->
  result_of o = inr e ->
  response st
  = Fulfilled
      (VResponse 500
         (VObject
            [ ("error", VString "Failed to analyze text");
              ("details",
               VString match e with
                       | VError message => message
                       | _ => "Unknown error"
                       end) ])).
Proof.
  intros A E Hg Ho. destruct (run_of _ _ _ _ _ _ A E) as [R _].
  rewrite (run_response _ _ _ _ R).
  now rewrite (outcome_failure _ _ (first_failure_app _ _ _ _ _ Hg Ho)).
Qed.

Lemma first_failure_decides_details_witness :
  exists st,
    exec (request_with (VString "KV is slow"))
      ([ (2, answer "Performance Issue") ]
       ++ (1, Reject (VString "socket closed"))
          :: [ (0, Reject (VError "quota exceeded")) ])%list = Some st
    /\ response st
       = Fulfilled
           (VResponse 500
              (VObject
                 [ ("error", VString "Failed to analyze text");
                   ("details", VString "Unknown error") ])).
Proof.
  pose proof (sample_accepted (VString "KV is slow") eq_refl) as A.
  destruct (run_exists _ _ _ _
              ([ (2, answer "Performance Issue") ]
               ++ (1, Reject (VString "socket closed"))
                  :: [ (0, Reject (VError "quota exceeded")) ])%list
              A eq_refl) as [st E].
  exists st. split; [exact E|].
  apply (first_failure_decides_details _ _ _ _
           [ (2, answer "Performance Issue") ]
           [ (0, Reject (VError "quota exceeded")) ]
           1 (Reject (VString "socket closed")) (VString "socket closed")
           st A E).
  - repeat constructor. simpl. eexists. reflexivity.
  - reflexivity.
Defined.

(** X6.  A response, once given, is final: the calls that settle after it
    do not change it. *)
Theorem response_is_final (req : NextRequest) (ai : Ai) (g : string)
    (text : Value) (sched more : list (nat * Settlement))
    (st st' : State) (r : Value) :
  accepted req ai g text ->
  exec req sched = Some st -> exec req (sched ++ more)%list = Some st' ->
  response st = Fulfilled r -> response st' = Fulfilled r.
Proof.
  intros A E E' Hr.
  destruct (run_of _ _ _ _ _ _ A E) as [R _].
  destruct (run_of _ _ _ _ _ _ A E') as [R' Hreal].
  rewrite (run_response _ _ _ _ R) in Hr. rewrite (run_response _ _ _ _ R').
  destruct (first_failure sched) as [e|] eqn:Hf.
  - rewrite (outcome_failure _ _ Hf) in Hr.
    now rewrite (outcome_failure _ _ (first_failure_more _ more _ Hf)).
  - assert (H200 : exists body, r = VResponse 200 body).
    { unfold outcome in Hr. rewrite Hf in Hr.
      destruct (delivered 0 sched) as [[]|]; try discriminate.
      destruct (delivered 1 sched) as [[]|]; try discriminate.
      destruct (delivered 2 sched) as [[]|]; try discriminate.
      injection Hr as <-. unfold NextResponse_json. eauto. }
    destruct H200 as [body ->].
    destruct (outcome_200 _ _ Hr) as (s & p & i & (H0 & H1 & H2) & ->).
    apply outcome_completions; [assumption|].
    repeat split; now apply delivered_more.
Qed.

Lemma response_is_final_witness :
  exists st st',
    exec (request_with (VString "KV is slow"))
      [ (1, Reject (VError "quota exceeded")) ] = Some st
    /\ exec (request_with (VString "KV is slow"))
         ([ (1, Reject (VError "quota exceeded")) ]
          ++ [ (0, answer "negative"); (2, answer "General") ])%list
       = Some st'
    /\ response st = Fulfilled (InferenceError (VError "quota exceeded"))
    /\ response st' = Fulfilled (InferenceError (VError "quota exceeded")).
Proof.
  pose proof (sample_accepted (VString "KV is slow") eq_refl) as A.
  destruct (run_exists _ _ _ _ [ (1, Reject (VError "quota exceeded")) ]
              A eq_refl) as [st E].
  destruct (run_exists _ _ _ _
              ([ (1, Reject (VError "quota exceeded")) ]
               ++ [ (0, answer "negative"); (2, answer "General") ])%list
              A eq_refl) as [st' E'].
  assert (Hr : response st
               = Fulfilled (InferenceError (VError "quota exceeded"))).
  { destruct (run_of _ _ _ _ _ _ A E) as [R _].
    rewrite (run_response _ _ _ _ R). reflexivity. }
  exists st, st'. split; [exact E|]. split; [exact E'|].
  split; [exact Hr|].
  exact (response_is_final _ _ _ _ _ _ st st' _ A E E' Hr).
Defined.

(** X7.  In every HTTP 200 response the [issues] are an array of exactly
    one string, which is a label of the issue taxonomy or the fallback
    "General Question". *)
Theorem response_has_one_issue (req : NextRequest) (ai : Ai) (g : string)
    (text : Value) (sched : list (nat * Settlement)) (st : State)
    (body : Value) :
  accepted req ai g text -> exec req sched = Some st ->
  response st = Fulfilled (VResponse 200 body) ->
  exists label,
    issues_of body = VArray [ VString label ]
    /\ (In label ISSUE_LABELS \/ label = "General Question").
Proof.
  intros A E Hr. destruct (run_of _ _ _ _ _ _ A E) as [R _].
  rewrite (run_response _ _ _ _ R) in Hr.
  destruct (outcome_200 _ _ Hr) as (s & p & i & _ & ->).
  change (issues_of (AnalysisResult s p i))
    with (VArray (map VString (processIssues i))).
  destruct (In_dec_label (trim i)) as [H | H].
  - exists (trim i). rewrite (processIssues_member _ H). now split; [|left].
  - exists "General Question". rewrite (processIssues_fallback _ H).
    now split; [|right].
Qed.

Lemma response_has_one_issue_witness :
  exists st label,
    exec (request_with (VString "How do I bill?"))
      [ (2, answer "billing"); (0, answer "neutral"); (1, answer "none") ]
    = Some st
    /\ response st
       = Fulfilled
           (VResponse 200 (AnalysisResult "neutral" "none" "billing"))
    /\ issues_of (AnalysisResult "neutral" "none" "billing")
       = VArray [ VString label ]
    /\ (In label ISSUE_LABELS \/ label = "General Question").
Proof.
  pose proof (sample_accepted (VString "How do I bill?") eq_refl) as A.
  destruct (run_exists _ _ _ _
              [ (2, answer "billing"); (0, answer "neutral");
                (1, answer "none") ] A eq_refl) as [st E].
  assert (Hr : response st
               = Fulfilled
                   (VResponse 200
                      (AnalysisResult "neutral" "none" "billing"))).
  { apply (response_of_completions _ _ _ _ _ _ _ _ _ A E). repeat split. }
  destruct (response_has_one_issue _ _ _ _ _ st _ A E Hr)
    as (label & Hi & Hl).
  exists st, label. split; [exact E|]. split; [exact Hr|].
  split; [exact Hi | exact Hl].
Defined.

(* ================================================================= *)
(** ** More on the products normalizer *)

Lemma trimStart_idem (s : string) : trimStart (trimStart s) = trimStart s.
Proof.
  induction s as [|c s IH]; simpl; [reflexivity|].
  destruct (isWhiteSpace c) eqn:Hc; [exact IH|].
  simpl. now rewrite Hc.
Qed.

Lemma trimEnd_idem (s : string) : trimEnd (trimEnd s) = trimEnd s.
Proof.
  induction s as [|c s IH]; simpl; [reflexivity|].
  destruct (trimEnd s) as [|x t] eqn:E.
  - destruct (isWhiteSpace c) eqn:Hc; simpl; [reflexivity|].
    now rewrite Hc.
  - change (trimEnd (String c (String x t)))
      with (match trimEnd (String x t) with
            | EmptyString =>
                if isWhiteSpace c then EmptyString else String c EmptyString
            | u => String c u
            end).
    now rewrite IH.
Qed.

Lemma trimStart_trimEnd (s : string) :
  trimStart (trimEnd s) = trimEnd (trimStart s).
Proof.
  induction s as [|c s IH]; [reflexivity|].
  change (trimEnd (String c s))
    with (match trimEnd s with
          | EmptyString =>
              if isWhiteSpace c then EmptyString else String c EmptyString
          | u => String c u
          end).
  change (trimStart (String c s))
    with (if isWhiteSpace c then trimStart s else String c s).
  destruct (isWhiteSpace c) eqn:Hc.
  - rewrite <- IH. destruct (trimEnd s) as [|x t]; [reflexivity|].
    simpl. now rewrite Hc.
  - change (trimEnd (String c s))
      with (match trimEnd s with
            | EmptyString =>
                if isWhiteSpace c then EmptyString else String c EmptyString
            | u => String c u
            end).
    rewrite Hc. destruct (trimEnd s) as [|x t]; simpl; now rewrite Hc.
Qed.

(** Trimming twice is trimming once. *)
Lemma trim_idem (s : string) : trim (trim s) = trim s.
Proof.
  unfold trim.
  now rewrite trimStart_trimEnd, trimStart_idem, trimEnd_idem.
Qed.

Lemma trim_skips_space (d : ascii) (s : string) :
  isWhiteSpace d = true -> trim (String d s) = trim s.
Proof. intros H. unfold trim. simpl. now rewrite H. Qed.

Lemma filter_all {A : Type} (f : A -> bool) (l : list A) :
  (forall x, In x l -> f x = true) -> filter f l = l.
Proof.
  induction l as [|x l IH]; intros H; simpl; [reflexivity|].
  rewrite (H x (or_introl eq_refl)). f_equal. apply IH.
  intros y Hy. apply H. now right.
Qed.

Lemma split_append (sep : ascii) (s t : string) :
  has sep s = false ->
  split sep (s ++ String sep t) = s :: split sep t.
Proof.
  induction s as [|c s IH]; simpl.
  - intros _. now rewrite Ascii.eqb_refl.
  - intros H. apply orb_false_iff in H as [Hc Hs].
    now rewrite Hc, (IH Hs).
Qed.

Lemma split_skips_space (sep d : ascii) (s : string) :
  isWhiteSpace d = true -> Ascii.eqb d sep = false ->
  map trim (split sep (String d s)) = map trim (split sep s).
Proof.
  intros Hd Hs. simpl. rewrite Hs.
  destruct (split_shape sep s) as (seg & rest & ->). simpl.
  now rewrite (trim_skips_space d seg Hd).
Qed.

Lemma has_append (c : ascii) (s t : string) :
  has c (s ++ t) = has c s || has c t.
Proof.
  induction s as [|d s IH]; simpl; [reflexivity|].
  now rewrite IH, orb_assoc.
Qed.

(** The names of the catalog are trimmed, have no comma, are not [none]
    in any case, and each mentions itself. *)
Lemma catalog_names (name : string) :
  In name CLOUDFLARE_PRODUCTS ->
  trim name = name
  /\ has comma name = false
  /\ strictEq (toLowerCase name) "none" = false
  /\ mentions_product name = true.
Proof.
  intros H. simpl in H.
  repeat (destruct H as [<- | H]; [repeat split; vm_compute; reflexivity|]).
  contradiction.
Qed.

Lemma split_joined_names (names : list string) :
  (forall n, In n names -> In n CLOUDFLARE_PRODUCTS) ->
  names <> [] ->
  map trim (split comma (join ", " names)) = names.
Proof.
  induction names as [|n names IH]; intros Hin Hne; [congruence|].
  destruct (catalog_names n (Hin n (or_introl eq_refl)))
    as (Ht & Hc & _ & _).
  destruct names as [|m names].
  - simpl. rewrite (split_without comma n Hc). simpl. now rewrite Ht.
  - change (join ", " (n :: m :: names))
      with (n ++ String comma (String " " (join ", " (m :: names)))).
    rewrite (split_append comma n _ Hc).
    change (map trim (n :: ?l)) with (trim n :: map trim l).
    rewrite Ht, split_skips_space by reflexivity.
    f_equal. apply IH; [|discriminate].
    intros x Hx. apply Hin. now right.
Qed.

(** X8.  Every product that the normalizer returns is clean: it has no
    white space at either end, no comma, and is not empty. *)
Theorem products_are_clean (response product : string) :
  In product (processProducts response) ->
  trim product = product
  /\ has comma product = false
  /\ product <> EmptyString.
Proof.
  intros H. rewrite processProducts_unfold in H.
  destruct (strictEq (toLowerCase response) "none"); [contradiction|].
  apply filter_In in H as [Hin Hm].
  apply in_map_iff in Hin as (seg & <- & Hseg).
  split; [apply trim_idem|]. split.
  - rewrite has_trim by reflexivity.
    pose proof (split_segments comma response) as Hall.
    rewrite Forall_forall in Hall. exact (Hall seg Hseg).
  - intros E. rewrite E in Hm. vm_compute in Hm. discriminate Hm.
Qed.

Lemma products_are_clean_witness :
  In "Workers AI" (processProducts "  Workers AI , D1 ")
  /\ trim "Workers AI" = "Workers AI"
  /\ has comma "Workers AI" = false
  /\ "Workers AI" <> EmptyString.
Proof.
  assert (H : In "Workers AI" (processProducts "  Workers AI , D1 "))
    by (vm_compute; left; reflexivity).
  split; [exact H|].
  exact (products_are_clean "  Workers AI , D1 " "Workers AI" H).
Defined.

(** X9.  The normalizer reads back what the prompt asks for: names of the
    catalog joined by a comma and a space, as the catalog itself is
    written into the prompt, give those names, in order and with
    repetitions. *)
Theorem processProducts_reads_catalog_names (names : list string) :
  (forall n, In n names -> In n CLOUDFLARE_PRODUCTS) ->
  processProducts (join ", " names) = names.
Proof.
  intros Hin. destruct names as [|n names]; [reflexivity|].
  rewrite processProducts_unfold.
  assert (Hnone : strictEq (toLowerCase (join ", " (n :: names))) "none"
                  = false).
  { destruct names as [|m names].
    - exact (proj1 (proj2 (proj2 (catalog_names n
                (Hin n (or_introl eq_refl)))))).
    - apply String.eqb_neq. intros E.
      assert (Hc : has comma (toLowerCase (join ", " (n :: m :: names)))
                   = true).
      { rewrite has_comma_toLowerCase.
        change (join ", " (n :: m :: names))
          with (n ++ String comma (String " " (join ", " (m :: names)))).
        rewrite has_append. simpl. apply orb_true_r. }
      rewrite E in Hc. discriminate Hc. }
  rewrite Hnone, split_joined_names by (assumption || discriminate).
  apply filter_all. intros x Hx.
  exact (proj2 (proj2 (proj2 (catalog_names x (Hin x Hx))))).
Qed.

Lemma processProducts_reads_catalog_names_witness :
  (forall n, In n CLOUDFLARE_PRODUCTS -> In n CLOUDFLARE_PRODUCTS)
  /\ processProducts (join ", " CLOUDFLARE_PRODUCTS) = CLOUDFLARE_PRODUCTS.
Proof.
  split; [auto|].
  exact (processProducts_reads_catalog_names CLOUDFLARE_PRODUCTS
           (fun n H => H)).
Defined.

(* ================================================================= *)
(** ** The client component *)

Section Client.

Import TextAnalyzer.

Lemma slice_length (s : string) (n : nat) :
  String.length (slice s 0 n) <= n.
Proof.
  unfold slice. rewrite Nat.sub_0_r. revert s.
  induction n as [|n IH]; intros [|c s]; simpl; try lia.
  specialize (IH s). lia.
Qed.

Lemma nonblank (t : string) :
  truthy (VString (trim t)) = true <-> trim t <> EmptyString.
Proof.
  simpl. unfold strictEq. rewrite negb_true_iff. apply String.eqb_neq.
Qed.

Lemma mounted_kept : Kept mounted.
Proof.
  constructor; simpl; [lia | now right | contradiction].
Qed.

Lemma resume_cells (r : FetchResult) (s : Hooks) :
  text (fst (handleAnalyze_resume r s)) = text s
  /\ isAnalyzing (fst (handleAnalyze_resume r s)) = false
  /\ forall url init, ~ In (fetch url init) (snd (handleAnalyze_resume r s)).
Proof.
  destruct r as [e|[] [v|e]]; simpl; repeat split;
    intros url init H; simpl in H;
    repeat (destruct H as [H|H]; [discriminate H|]); contradiction.
Qed.

Lemma ui_step_kept (u : UI) (e : UIEvent) : Kept u -> Kept (ui_step u e).
Proof.
  intros K. pose proof K as [Hl Hw Hr]. destruct e as [value| |r].
  - constructor; simpl; [apply slice_length | exact Hw | exact Hr].
  - unfold ui_step, disabled, handleAnalyze.
    destruct (isAnalyzing (hooks u)) eqn:Ha; [exact K|].
    destruct (truthy (VString (trim (text (hooks u))))) eqn:Ht;
      [|exact K].
    cbv beta iota delta [negb orb].
    destruct Hw as [[Hw _]|[_ Hw]]; [discriminate Hw|].
    constructor; cbn [hooks waiting effects].
    + exact Hl.
    + left. rewrite Hw. now split.
    + intros url init H. apply in_app_or in H as [H|H]; [now apply Hr|].
      destruct H as [H|[]]. injection H as <- <-.
      repeat split. exists (text (hooks u)).
      split; [reflexivity|]. split; [now apply nonblank | exact Hl].
  - unfold ui_step.
    destruct Hw as [[Ha Hw]|[Ha Hw]]; rewrite Hw; [|exact K].
    destruct (resume_cells r (hooks u)) as (Ht & Hf & Hn).
    destruct (handleAnalyze_resume r (hooks u)) as [s eff] eqn:E.
    simpl in Ht, Hf, Hn.
    constructor; cbn [hooks waiting effects].
    + now rewrite Ht.
    + now right.
    + intros url init H. apply in_app_or in H as [H|H]; [now apply Hr|].
      now elim (Hn url init).
Qed.

Lemma ui_run_from (events : list UIEvent) (u : UI) :
  Kept u -> Kept (fold_left ui_step events u).
Proof.
  revert u. induction events as [|e events IH]; intros u H; simpl;
    [exact H|].
  apply IH. now apply ui_step_kept.
Qed.

Lemma ui_run_kept (events : list UIEvent) : Kept (ui_run events).
Proof. apply ui_run_from. exact mounted_kept. Qed.

Lemma ui_run_snoc (events : list UIEvent) (e : UIEvent) :
  ui_run (events ++ [e])%list = ui_step (ui_run events) e.
Proof. unfold ui_run. now rewrite fold_left_app. Qed.

(** Only a change touches the text. *)
Lemma ui_step_text (u : UI) (e : UIEvent) :
  Kept u ->
  text (hooks (ui_step u e))
  = match e with
    | Change value => slice value 0 MAX_CHARS
    | _ => text (hooks u)
    end.
Proof.
  intros K. destruct e as [value| |r]; [reflexivity| |].
  - unfold ui_step, handleAnalyze.
    destruct (disabled (hooks u)); [reflexivity|].
    now destruct (negb (truthy (VString (trim (text (hooks u)))))).
  - unfold ui_step.
    destruct (kept_waiting _ K) as [[_ Hw]|[_ Hw]]; rewrite Hw;
      [|reflexivity].
    destruct (resume_cells r (hooks u)) as (Ht & _ & _).
    now destruct (handleAnalyze_resume r (hooks u)).
Qed.

(** The text held is what has been typed. *)
Lemma text_is_typed (events : list UIEvent) :
  text (hooks (ui_run events)) = typed events.
Proof.
  induction events as [|e events IH] using rev_ind; [reflexivity|].
  rewrite ui_run_snoc, (ui_step_text _ e (ui_run_kept events)).
  unfold typed. rewrite fold_left_app. simpl.
  destruct e; [reflexivity | exact IH | exact IH].
Qed.

(** A request is sent by a click only, with the text held at the click. *)
Lemma ui_step_request (u : UI) (e : UIEvent) (url : string)
    (init : RequestInit) :
  Kept u ->
  In (fetch url init) (effects (ui_step u e)) ->
  In (fetch url init) (effects u)
  \/ (e = Click
      /\ body init = VObject [ ("text", VString (text (hooks u))) ]).
Proof.
  intros K. destruct e as [value| |r].
  - now left.
  - unfold ui_step, handleAnalyze.
    destruct (disabled (hooks u)); [now left|].
    destruct (negb (truthy (VString (trim (text (hooks u))))));
      cbn [effects]; intros H; apply in_app_or in H as [H|H];
      try (now left); destruct H as [H|[]]; [discriminate H|].
    injection H as <- <-. right. now split.
  - unfold ui_step.
    destruct (kept_waiting _ K) as [[_ Hw]|[_ Hw]]; rewrite Hw;
      [|now left].
    destruct (resume_cells r (hooks u)) as (_ & _ & Hn).
    destruct (handleAnalyze_resume r (hooks u)) as [s eff].
    cbn [effects]. simpl in Hn. intros H.
    apply in_app_or in H as [H|H]; [now left | now elim (Hn url init)].
Qed.

(** Every request comes from a click, and its body holds the text that
    had been typed when the button was clicked. *)
Lemma request_provenance (events : list UIEvent) (url : string)
    (init : RequestInit) :
  In (fetch url init) (effects (ui_run events)) ->
  exists before after,
    events = (before ++ Click :: after)%list
    /\ body init = VObject [ ("text", VString (text (hooks (ui_run before)))) ]
    /\ text (hooks (ui_run before)) = typed before.
Proof.
  induction events as [|e events IH] using rev_ind; [contradiction|].
  rewrite ui_run_snoc. intros H.
  apply (ui_step_request _ _ _ _ (ui_run_kept events)) in H
    as [H|[-> Hb]].
  - destruct (IH H) as (before & after & -> & Hb & Ht).
    exists before, (after ++ [e])%list.
    rewrite <- app_assoc. now repeat split.
  - exists events, []. repeat split; [exact Hb | apply text_is_typed].
Qed.

Lemma request_typed (events : list UIEvent) (url : string)
    (init : RequestInit) :
  In (fetch url init) (effects (ui_run events)) ->
  exists before after,
    events = (before ++ Click :: after)%list
    /\ body init = VObject [ ("text", VString (typed before)) ]
    /\ text (hooks (ui_run before)) = typed before
    /\ trim (typed before) <> EmptyString
    /\ String.length (typed before) <= MAX_CHARS.
Proof.
  intros H.
  destruct (kept_requests _ (ui_run_kept events) url init H)
    as (_ & _ & _ & t & Hb & Ht & Hl).
  destruct (request_provenance events url init H)
    as (before & after & He & Hb' & Hty).
  rewrite Hb in Hb'. injection Hb' as ->.
  exists before, after. rewrite <- Hty. now repeat split.
Qed.

Lemma typed_after_change (events : list UIEvent) (value : string) :
  typed (events ++ [Change value])%list = slice value 0 MAX_CHARS.
Proof. unfold typed. now rewrite fold_left_app. Qed.

End Client.

(** X10.  Whatever is typed or pasted into the text area, and whatever
    else happens, the text that the component holds never has more than
    [MAX_CHARS] (300) code units. *)
Theorem text_stays_within_limit (events : list TextAnalyzer.UIEvent) :
  String.length
    (TextAnalyzer.text (TextAnalyzer.hooks (TextAnalyzer.ui_run events)))
  <= 300.
Proof. exact (kept_limit _ (ui_run_kept events)). Qed.


(** X12.  Every request that the component sends is a POST to
    [/api/analyze] with a JSON content type, and it comes from a click on
    the button: its body is the object whose one property [text] is the
    text that the component held at that click, which is what had been
    typed until then, that is the value of the last change cut at 300
    code units, and not trimmed.  That text is not blank and has at most
    300 code units. *)
Theorem requests_carry_the_typed_text
    (events : list TextAnalyzer.UIEvent) (url : string)
    (init : TextAnalyzer.RequestInit) :
  In (TextAnalyzer.fetch url init)
     (TextAnalyzer.effects (TextAnalyzer.ui_run events)) ->
  url = "/api/analyze"
  /\ TextAnalyzer.method init = "POST"
  /\ TextAnalyzer.headers init = [ ("Content-Type", "application/json") ]
  /\ exists before after,
       events = (before ++ TextAnalyzer.Click :: after)%list
       /\ TextAnalyzer.body init
          = VObject
              [ ("text",
                 VString
                   (TextAnalyzer.text
                      (TextAnalyzer.hooks (TextAnalyzer.ui_run before)))) ]
       /\ TextAnalyzer.text (TextAnalyzer.hooks (TextAnalyzer.ui_run before))
          = typed before
       /\ (forall earlier value,
              before = (earlier ++ [TextAnalyzer.Change value])%list ->
              typed before = slice value 0 300)
       /\ trim (typed before) <> EmptyString
       /\ String.length (typed before) <= 300.
Proof.
  intros H.
  destruct (kept_requests _ (ui_run_kept events) url init H)
    as (Hu & Hm & Hh & _).
  destruct (request_typed events url init H)
    as (before & after & He & Hb & Hty & Hn & Hl).
  split; [exact Hu|]. split; [exact Hm|]. split; [exact Hh|].
  exists before, after. split; [exact He|].
  split; [now rewrite Hty|]. split; [exact Hty|].
  split; [|now split].
  intros earlier value ->. apply typed_after_change.
Qed.

Lemma requests_carry_the_typed_text_witness :
  In (TextAnalyzer.fetch "/api/analyze"
        {| TextAnalyzer.method := "POST";
           TextAnalyzer.headers := [ ("Content-Type", "application/json") ];
           TextAnalyzer.body := VObject [ ("text", VString " R2 ") ] |})
     (TextAnalyzer.effects
        (TextAnalyzer.ui_run
           [ TextAnalyzer.Change " R2 "; TextAnalyzer.Click ]))
  /\ exists before after,
       [ TextAnalyzer.Change " R2 "; TextAnalyzer.Click ]
       = (before ++ TextAnalyzer.Click :: after)%list
       /\ VObject [ ("text", VString " R2 ") ]
          = VObject [ ("text", VString (typed before)) ].
Proof.
  assert (H : In (TextAnalyzer.fetch "/api/analyze"
                    {| TextAnalyzer.method := "POST";
                       TextAnalyzer.headers :=
                         [ ("Content-Type", "application/json") ];
                       TextAnalyzer.body :=
                         VObject [ ("text", VString " R2 ") ] |})
                 (TextAnalyzer.effects
                    (TextAnalyzer.ui_run
                       [ TextAnalyzer.Change " R2 "; TextAnalyzer.Click ])))
    by (vm_compute; left; reflexivity).
  split; [exact H|].
  destruct (requests_carry_the_typed_text _ _ _ H)
    as (_ & _ & _ & before & after & He & Hb & Hty & _).
  exists before, after. split; [exact He|].
  simpl in Hb. now rewrite <- Hty.
Defined.

(** X13.  The route never rejects what the component sends: served in a
    configured environment, every request of the component passes the
    guard on [text], so that it is answered with HTTP 200 or 500 and
    never with 400, and each of the three inference calls carries as its
    user message the text that had been typed when the button was
    clicked, of at most 300 code units and not trimmed. *)
Theorem client_requests_pass_validation
    (events : list TextAnalyzer.UIEvent) (url : string)
    (init : TextAnalyzer.RequestInit) (ai : Ai) (g : string) :
  In (TextAnalyzer.fetch url init)
     (TextAnalyzer.effects (TextAnalyzer.ui_run events)) ->
  g <> EmptyString ->
  exists before after,
    events = (before ++ TextAnalyzer.Click :: after)%list
    /\ TextAnalyzer.text (TextAnalyzer.hooks (TextAnalyzer.ui_run before))
       = typed before
    /\ String.length (typed before) <= 300
    /\ forall sched st,
         exec {| env := Some {| AI := Some ai;
                                CLOUDFLARE_GATEWAY_ID := Some g |};
                 json := Resolve (TextAnalyzer.body init) |} sched
         = Some st ->
         map user_message (invocations (trace st))
         = [ Some (VString (typed before)); Some (VString (typed before));
             Some (VString (typed before)) ]
         /\ forall status b,
              response st = Fulfilled (VResponse status b) ->
              status = 200%Z \/ status = 500%Z.
Proof.
  intros H Hg.
  destruct (request_typed events url init H)
    as (before & after & He & Hb & Hty & Ht & Hl).
  exists before, after. split; [exact He|]. split; [exact Hty|].
  split; [exact Hl|]. intros sched st E. rewrite Hb in E.
  assert (A : accepted
                {| env := Some {| AI := Some ai;
                                  CLOUDFLARE_GATEWAY_ID := Some g |};
                   json := Resolve
                             (VObject [ ("text", VString (typed before)) ]) |}
                ai g (VString (typed before))).
  { split; [reflexivity|]. split; [exact Hg|].
    exists (VObject [ ("text", VString (typed before)) ]).
    split; [reflexivity|]. split; [reflexivity|].
    simpl. unfold strictEq. apply negb_true_iff, String.eqb_neq.
    intros Hempty. apply Ht. now rewrite Hempty. }
  destruct (run_of _ _ _ _ _ _ A E) as [R _]. split.
  - destruct (trace_shape _ _ _ _ R) as (later & -> & Hlater & _).
    rewrite invocations_app, Hlater. reflexivity.
  - intros status b Hr. rewrite (run_response _ _ _ _ R) in Hr.
    exact (outcome_status _ _ _ Hr).
Qed.

Lemma client_requests_pass_validation_witness :
  exists before after,
    [ TextAnalyzer.Change " R2 "; TextAnalyzer.Click ]
    = (before ++ TextAnalyzer.Click :: after)%list
    /\ String.length (typed before) <= 300
    /\ forall sched st,
         exec {| env := Some {| AI := Some AiBinding;
                                CLOUDFLARE_GATEWAY_ID := Some "gateway" |};
                 json := Resolve (VObject [ ("text", VString " R2 ") ]) |}
           sched = Some st ->
         map user_message (invocations (trace st))
         = [ Some (VString (typed before)); Some (VString (typed before));
             Some (VString (typed before)) ].
Proof.
  destruct (client_requests_pass_validation
              [ TextAnalyzer.Change " R2 "; TextAnalyzer.Click ]
              "/api/analyze"
              {| TextAnalyzer.method := "POST";
                 TextAnalyzer.headers :=
                   [ ("Content-Type", "application/json") ];
                 TextAnalyzer.body := VObject [ ("text", VString " R2 ") ] |}
              AiBinding "gateway")
    as (before & after & He & _ & Hl & Hrun).
  - vm_compute. left. reflexivity.
  - discriminate.
  - exists before, after. split; [exact He|]. split; [exact Hl|].
    intros sched st E. exact (proj1 (Hrun sched st E)).
Defined.



(** X15.  What the result card shows of the sentiment.  For a completion
    that is [positive], [negative] or [neutral] in any case, the card
    draws the smiling, the frowning and the plain face.  For a completion
    that is none of these, and neither [constructor] nor [__proto__], the
    HTTP 200 result has no sentiment, and the expression
    [analysis.sentiment.label] of the card throws instead of giving a
    label. *)
Theorem result_card_sentiment (req : NextRequest) (ai : Ai) (g : string)
    (text : Value) (sched : list (nat * Settlement)) (st : State)
    (s p i : string) :
  accepted req ai g text -> exec req sched = Some st ->
  completions sched s p i ->
  exists body,
    response st = Fulfilled (VResponse 200 body)
    /\ (toLowerCase s = "positive" ->
        TextAnalyzer.sentiment_icon body = inl TextAnalyzer.Smile)
    /\ (toLowerCase s = "negative" ->
        TextAnalyzer.sentiment_icon body = inl TextAnalyzer.Frown)
    /\ (toLowerCase s = "neutral" ->
        TextAnalyzer.sentiment_icon body = inl TextAnalyzer.Meh)
    /\ (~ In (toLowerCase s)
            [ "positive"; "negative"; "neutral"; "constructor"; "__proto__" ]
        -> exists e, TextAnalyzer.sentiment_icon body = inr e).
Proof.
  intros A E C. exists (AnalysisResult s p i).
  split; [now apply (response_of_completions _ _ _ _ _ _ _ _ _ A E C)|].
  change (TextAnalyzer.sentiment_icon (AnalysisResult s p i))
    with (match Get (property SENTIMENT_MAP (toLowerCase s)) "label" with
          | inl label => inl (TextAnalyzer.getSentimentIcon label)
          | inr e => @inr TextAnalyzer.Icon Value e
          end).
  repeat split.
  - intros ->. reflexivity.
  - intros ->. reflexivity.
  - intros ->. reflexivity.
  - intros H. rewrite sentiment_lookup. cbv zeta.
    repeat match goal with
           | |- context [String.eqb ?k (toLowerCase s)] =>
               let Hk := fresh "Hk" in
               destruct (String.eqb_spec k (toLowerCase s)) as [Hk|Hk];
               [ exfalso; apply H; rewrite <- Hk; simpl; tauto | ]
           end.
    simpl. eauto.
Qed.

Lemma result_card_sentiment_witness :
  exists st body e,
    exec (request_with (VString "KV is fine"))
      [ (1, answer "KV"); (0, answer "Mixed"); (2, answer "General") ]
    = Some st
    /\ response st = Fulfilled (VResponse 200 body)
    /\ TextAnalyzer.sentiment_icon body = inr e.
Proof.
  pose proof (sample_accepted (VString "KV is fine") eq_refl) as A.
  destruct (run_exists _ _ _ _
              [ (1, answer "KV"); (0, answer "Mixed");
                (2, answer "General") ] A eq_refl) as [st E].
  destruct (result_card_sentiment _ _ _ _ _ st "Mixed" "KV" "General" A E)
    as (body & Hr & _ & _ & _ & Hu); [repeat split|].
  destruct Hu as [e He].
  { simpl. intros [H|[H|[H|[H|[H|[]]]]]]; discriminate H. }
  exists st, body, e. split; [exact E|]. split; [exact Hr | exact He].
Defined.

(* ================================================================= *)
(** ** The theme switch *)

(** X16.  A click on the theme switch sets [light] when the theme is
    [dark] and [dark] for every other theme, [system] or none included.
    From the first click on the theme alternates between the two: a
    theme that is neither is never set again. *)
Theorem theme_alternates (theme : Value) :
  let first := ThemeToggle.onClick theme in
  (ThemeToggle.isDark theme = true -> first = VString "light")
  /\ (ThemeToggle.isDark theme = false -> first = VString "dark")
  /\ (first = VString "light" \/ first = VString "dark")
  /\ ThemeToggle.isDark (ThemeToggle.onClick first)
     = negb (ThemeToggle.isDark first)
  /\ ThemeToggle.onClick (ThemeToggle.onClick first) = first.
Proof.
  cbv zeta. unfold ThemeToggle.onClick.
  destruct (ThemeToggle.isDark theme); simpl; repeat split;
    try discriminate; auto.
Qed.

Lemma theme_alternates_witness :
  ThemeToggle.isDark (VString "system") = false
  /\ ThemeToggle.onClick (VString "system") = VString "dark".
Proof.
  split; [reflexivity|].
  exact (proj1 (proj2 (theme_alternates (VString "system"))) eq_refl).
Defined.


(* ================================================================= *)
(** ** Round trips of the products normalizer and of the text area *)

Lemma mention_is_not_none (name : string) :
  mentions_product name = true ->
  strictEq (toLowerCase name) "none" = false.
Proof.
  intros H. unfold strictEq. apply String.eqb_neq. intros E.
  unfold mentions_product in H. rewrite E in H.
  vm_compute in H. discriminate H.
Qed.

Lemma split_joined_clean (names : list string) :
  (forall n, In n names -> trim n = n /\ has comma n = false) ->
  names <> [] ->
  map trim (split comma (join ", " names)) = names.
Proof.
  induction names as [|n names IH]; intros Hin Hne; [congruence|].
  destruct (Hin n (or_introl eq_refl)) as (Ht & Hc).
  destruct names as [|m names].
  - simpl. rewrite (split_without comma n Hc). simpl. now rewrite Ht.
  - change (join ", " (n :: m :: names))
      with (n ++ String comma (String " " (join ", " (m :: names)))).
    rewrite (split_append comma n _ Hc).
    change (map trim (n :: ?l)) with (trim n :: map trim l).
    rewrite Ht, split_skips_space by reflexivity.
    f_equal. apply IH; [|discriminate].
    intros x Hx. apply Hin. now right.
Qed.

Lemma processProducts_joined (names : list string) :
  (forall n, In n names ->
     trim n = n /\ has comma n = false /\ mentions_product n = true) ->
  processProducts (join ", " names) = names.
Proof.
  intros Hin. destruct names as [|n names]; [reflexivity|].
  rewrite processProducts_unfold.
  assert (Hnone : strictEq (toLowerCase (join ", " (n :: names))) "none"
                  = false).
  { destruct names as [|m names].
    - apply mention_is_not_none.
      exact (proj2 (proj2 (Hin n (or_introl eq_refl)))).
    - apply String.eqb_neq. intros E.
      assert (Hc : has comma (toLowerCase (join ", " (n :: m :: names)))
                   = true).
      { rewrite has_comma_toLowerCase.
        change (join ", " (n :: m :: names))
          with (n ++ String comma (String " " (join ", " (m :: names)))).
        rewrite has_append. simpl. apply orb_true_r. }
      rewrite E in Hc. discriminate Hc. }
  rewrite Hnone, split_joined_clean.
  - apply filter_all. intros x Hx. exact (proj2 (proj2 (Hin x Hx))).
  - intros x Hx. destruct (Hin x Hx) as (Ht & Hc & _). now split.
  - discriminate.
Qed.

Lemma processProducts_clean (response product : string) :
  In product (processProducts response) ->
  trim product = product
  /\ has comma product = false
  /\ mentions_product product = true.
Proof.
  intros H. rewrite processProducts_unfold in H.
  destruct (strictEq (toLowerCase response) "none"); [contradiction|].
  apply filter_In in H as [Hin Hm].
  apply in_map_iff in Hin as (seg & <- & Hseg).
  split; [apply trim_idem|]. split; [|exact Hm].
  rewrite has_trim by reflexivity.
  pose proof (split_segments comma response) as Hall.
  rewrite Forall_forall in Hall. exact (Hall seg Hseg).
Qed.

(** X17.  The products normalizer is idempotent on its own output: the
    products it returns for a completion, joined by a comma and a space,
    are a completion for which it returns the same products. *)
Theorem processProducts_idempotent (response : string) :
  processProducts (join ", " (processProducts response))
  = processProducts response.
Proof.
  apply processProducts_joined. intros n Hn.
  exact (processProducts_clean response n Hn).
Qed.

Lemma substring_prefix (n : nat) (s : string) :
  exists rest,
    s = substring 0 n s ++ rest
    /\ (String.length s <= n -> rest = EmptyString)
    /\ (n <= String.length s -> String.length (substring 0 n s) = n).
Proof.
  revert s. induction n as [|n IH]; intros [|c s]; simpl.
  - exists EmptyString. repeat split; auto.
  - exists (String c s). repeat split; auto. intros H. lia.
  - exists EmptyString. repeat split; auto. intros H. lia.
  - destruct (IH s) as (rest & Hs & Hshort & Hlong).
    exists rest. repeat split.
    + now rewrite <- Hs.
    + intros H. apply Hshort. lia.
    + intros H. rewrite Hlong; lia.
Qed.

(** X18.  The text area only ever cuts: after a change the text held is
    the beginning of what was typed or pasted, all of it when that has at
    most 300 code units and its first 300 code units otherwise; the other
    cells are left alone. *)
Theorem typed_text_is_cut_at_limit (value : string) (s : TextAnalyzer.Hooks) :
  let s' := TextAnalyzer.onChange value s in
  (exists rest, value = TextAnalyzer.text s' ++ rest)
  /\ (String.length value <= 300 -> TextAnalyzer.text s' = value)
  /\ (300 <= String.length value ->
      String.length (TextAnalyzer.text s') = 300)
  /\ TextAnalyzer.isAnalyzing s' = TextAnalyzer.isAnalyzing s
  /\ TextAnalyzer.analysis s' = TextAnalyzer.analysis s.
Proof.
  cbv zeta. unfold TextAnalyzer.onChange, slice. simpl.
  destruct (substring_prefix 300 value) as (rest & Hs & Hshort & Hlong).
  change (TextAnalyzer.MAX_CHARS - 0) with 300.
  split; [now exists rest|]. split; [|split; [exact Hlong | split; reflexivity]].
  intros H. rewrite (Hshort H) in Hs. rewrite Hs at 2.
  now rewrite append_empty_r.
Qed.

Lemma typed_text_is_cut_at_limit_witness :
  String.length "Pages" <= 300
  /\ TextAnalyzer.text
       (TextAnalyzer.onChange "Pages"
          (TextAnalyzer.hooks TextAnalyzer.mounted)) = "Pages".
Proof.
  assert (H : String.length "Pages" <= 300) by (simpl; lia).
  split; [exact H|].
  exact (proj1 (proj2
           (typed_text_is_cut_at_limit "Pages"
              (TextAnalyzer.hooks TextAnalyzer.mounted))) H).
Defined.
